(** * Requirement validator: a shallow embedding of [src/main.py]

    The development follows [AdvancedRequirementValidator]: its rule tables
    ([__init__]), [normalize_text] and [validate_requirement].  Python
    strings are sequences of Unicode code points; the calls into the Python
    runtime and the [unicodedata] module ([str.lower], [str.isspace],
    [unicodedata.normalize], [unicodedata.category]) are an interface, and
    the spaCy pipeline is an optional function that may raise.  The last
    part runs the same method on a heap of objects with values typed at run
    time, and shows that it computes the same reports. *)

From Stdlib Require Import String Ascii List NArith Bool Arith Lia.
Import ListNotations.

Set Implicit Arguments.

(** ** Python strings *)

Definition code_point := N.
Definition str := list code_point.

(** String literals are written as UTF-8 text and decoded to code points,
    so that the tables below read like the Python source. *)
Fixpoint utf8_decode (bytes : list N) (acc : N) (pending : nat) : str :=
  match bytes with
  | [] => []
  | b :: rest =>
      match pending with
      | O =>
          if (b <? 0x80)%N then b :: utf8_decode rest 0%N 0
          else if (b <? 0xE0)%N then utf8_decode rest (N.land b 0x1F) 1
          else if (b <? 0xF0)%N then utf8_decode rest (N.land b 0x0F) 2
          else utf8_decode rest (N.land b 0x07) 3
      | S O => (acc * 64 + N.land b 0x3F)%N :: utf8_decode rest 0%N 0
      | S k => utf8_decode rest (acc * 64 + N.land b 0x3F)%N k
      end
  end.

Definition u (s : string) : str :=
  utf8_decode (map N_of_ascii (list_ascii_of_string s)) 0%N 0.
Arguments u s : simpl never.

Fixpoint str_eqb (a b : str) : bool :=
  match a, b with
  | [], [] => true
  | x :: a', y :: b' => (x =? y)%N && str_eqb a' b'
  | _, _ => false
  end.

(** [prefix] is an initial segment of [s]. *)
Fixpoint startswith (prefix s : str) : bool :=
  match prefix, s with
  | [], _ => true
  | _ :: _, [] => false
  | p :: prefix', c :: s' => (p =? c)%N && startswith prefix' s'
  end.

(** The operator [sub in s] on strings: [sub] occurs in [s] as a substring. *)
Fixpoint str_in (sub s : str) : bool :=
  startswith sub s
  || match s with
     | [] => false
     | _ :: s' => str_in sub s'
     end.

(** [sep.join(items)]. *)
Fixpoint join (sep : str) (items : list str) : str :=
  match items with
  | [] => []
  | [x] => x
  | x :: rest => x ++ sep ++ join sep rest
  end.

Fixpoint dropwhile {A : Type} (p : A -> bool) (l : list A) : list A :=
  match l with
  | [] => []
  | x :: l' => if p x then dropwhile p l' else l
  end.

(** ** The Unicode character database

    What [validate_requirement] asks of the Python runtime.  The one law is
    a property of Normalization Form D: its output is fully decomposed, so
    no Latin-1 letter that has a canonical decomposition occurs in it. *)

(** The Latin-1 Supplement letters with a canonical decomposition
    (U+00C0..U+00FF without AE, ETH, the multiplication and division signs,
    O WITH STROKE, THORN and SHARP S). *)
Definition latin1_decomposable (c : code_point) : bool :=
  (0xC0 <=? c)%N && (c <=? 0xFF)%N
  && negb (existsb (N.eqb c)
             [0xC6; 0xD0; 0xD7; 0xD8; 0xDE; 0xDF; 0xE6; 0xF0; 0xF7; 0xF8; 0xFE]%N).

Class UnicodeData : Type := {
  (** [c.isspace()], the whitespace of [str.strip()] and [str.split()] *)
  isspace : code_point -> bool;
  (** [s.lower()] *)
  lower : str -> str;
  (** [unicodedata.normalize('NFD', s)] *)
  normalize_NFD : str -> str;
  (** [unicodedata.category(c) == 'Mn'] *)
  category_is_Mn : code_point -> bool;
  NFD_decomposed :
    forall s c, In c (normalize_NFD s) -> latin1_decomposable c = false
}.

Section Strings.
Context {U : UnicodeData}.

Definition lstrip (s : str) : str := dropwhile isspace s.
Definition rstrip (s : str) : str := rev (dropwhile isspace (rev s)).

(** [s.strip()] *)
Definition strip (s : str) : str := rstrip (lstrip s).

(** [s.split()]: the maximal runs of non-whitespace characters, in order.
    [word] holds the characters of the current run, last one first. *)
Fixpoint split_from (s : str) (word : str) : list str :=
  match s with
  | [] => match word with [] => [] | _ => [rev word] end
  | c :: s' =>
      if isspace c then
        match word with
        | [] => split_from s' []
        | _ => rev word :: split_from s' []
        end
      else split_from s' (c :: word)
  end.

Definition split (s : str) : list str := split_from s [].
End Strings.

(** ** A concrete database: Basic Latin, Latin-1 Supplement, combining marks

    The tables of CPython for U+0000..U+00FF and U+0300..U+036F, the
    repertoire of Spanish text; other code points are left as they are.
    The instance fixes the interface on concrete inputs and shows that its
    law can be met. *)
Module Latin.

Definition isspace (c : code_point) : bool :=
  existsb (N.eqb c)
    [0x09; 0x0A; 0x0B; 0x0C; 0x0D; 0x1C; 0x1D; 0x1E; 0x1F; 0x20; 0x85; 0xA0;
     0x1680; 0x2000; 0x2001; 0x2002; 0x2003; 0x2004; 0x2005; 0x2006; 0x2007;
     0x2008; 0x2009; 0x200A; 0x2028; 0x2029; 0x202F; 0x205F; 0x3000]%N.

Definition lower_char (c : code_point) : code_point :=
  if ((0x41 <=? c) && (c <=? 0x5A))%N then (c + 32)%N
  else if ((0xC0 <=? c) && (c <=? 0xDE) && negb (c =? 0xD7))%N then (c + 32)%N
  else c.

Definition lower (s : str) : str := map lower_char s.

(** Canonical decompositions, fully expanded. *)
Definition decompositions : list (code_point * str) :=
  [(0xC0, [0x41; 0x300]); (0xC1, [0x41; 0x301]); (0xC2, [0x41; 0x302]);
   (0xC3, [0x41; 0x303]); (0xC4, [0x41; 0x308]); (0xC5, [0x41; 0x30A]);
   (0xC7, [0x43; 0x327]); (0xC8, [0x45; 0x300]); (0xC9, [0x45; 0x301]);
   (0xCA, [0x45; 0x302]); (0xCB, [0x45; 0x308]); (0xCC, [0x49; 0x300]);
   (0xCD, [0x49; 0x301]); (0xCE, [0x49; 0x302]); (0xCF, [0x49; 0x308]);
   (0xD1, [0x4E; 0x303]); (0xD2, [0x4F; 0x300]); (0xD3, [0x4F; 0x301]);
   (0xD4, [0x4F; 0x302]); (0xD5, [0x4F; 0x303]); (0xD6, [0x4F; 0x308]);
   (0xD9, [0x55; 0x300]); (0xDA, [0x55; 0x301]); (0xDB, [0x55; 0x302]);
   (0xDC, [0x55; 0x308]); (0xDD, [0x59; 0x301]);
   (0xE0, [0x61; 0x300]); (0xE1, [0x61; 0x301]); (0xE2, [0x61; 0x302]);
   (0xE3, [0x61; 0x303]); (0xE4, [0x61; 0x308]); (0xE5, [0x61; 0x30A]);
   (0xE7, [0x63; 0x327]); (0xE8, [0x65; 0x300]); (0xE9, [0x65; 0x301]);
   (0xEA, [0x65; 0x302]); (0xEB, [0x65; 0x308]); (0xEC, [0x69; 0x300]);
   (0xED, [0x69; 0x301]); (0xEE, [0x69; 0x302]); (0xEF, [0x69; 0x308]);
   (0xF1, [0x6E; 0x303]); (0xF2, [0x6F; 0x300]); (0xF3, [0x6F; 0x301]);
   (0xF4, [0x6F; 0x302]); (0xF5, [0x6F; 0x303]); (0xF6, [0x6F; 0x308]);
   (0xF9, [0x75; 0x300]); (0xFA, [0x75; 0x301]); (0xFB, [0x75; 0x302]);
   (0xFC, [0x75; 0x308]); (0xFD, [0x79; 0x301]); (0xFF, [0x79; 0x308]);
   (0x340, [0x300]); (0x341, [0x301]); (0x343, [0x313]);
   (0x344, [0x308; 0x301])]%N.

Fixpoint lookup (c : code_point) (table : list (code_point * str)) : option str :=
  match table with
  | [] => None
  | (k, v) :: table' => if (c =? k)%N then Some v else lookup c table'
  end.

Definition decompose (c : code_point) : str :=
  match lookup c decompositions with
  | Some d => d
  | None => [c]
  end.

(** Decomposition of every character.  The canonical reordering of
    Normalization Form D is left out: in this repertoire it only permutes
    runs of combining marks, all of which [normalize_text] then drops. *)
Definition normalize_NFD (s : str) : str := flat_map decompose s.

Definition category_is_Mn (c : code_point) : bool :=
  ((0x300 <=? c) && (c <=? 0x36F))%N.

End Latin.

(** ** Exceptions and the object [self] *)

(** A call returns a value or raises; an exception is kept as its message. *)
Inductive outcome (A : Type) : Type :=
| Returned (a : A)
| Raised (message : str).
Arguments Returned {A} a.
Arguments Raised {A} message.

(** A method body: it runs against the attributes of [self], which it may
    read and assign, and returns or raises. *)
Definition method (Self A : Type) : Type := Self -> outcome A * Self.

Section Method.
Context {Self : Type}.

Definition ret {A} (a : A) : method Self A := fun self => (Returned a, self).

Definition bind {A B} (m : method Self A) (k : A -> method Self B)
  : method Self B :=
  fun self =>
    match m self with
    | (Returned a, self') => k a self'
    | (Raised e, self') => (Raised e, self')
    end.

(** [self.f] *)
Definition attr {A} (f : Self -> A) : method Self A :=
  fun self => (Returned (f self), self).

(** The result of calling out of the method. *)
Definition call {A} (o : outcome A) : method Self A := fun self => (o, self).
End Method.

Declare Scope method_scope.
Delimit Scope method_scope with method.
Notation "x <- m ;; k" := (bind m (fun x => k))
  (at level 61, m at next level, right associativity) : method_scope.

(** ** Data model *)

(** A spaCy token, as far as the validator looks at it. *)
Record Token : Type := { text : str; pos_ : str }.

(** [self.nlp]: the loaded pipeline, applied to a text. *)
Definition Tagger : Type := str -> outcome (list Token).

(** The entries of [validation_result['errors']]. *)
Module Error.
Record t : Type := { type : str; description : str; suggestion : str }.
End Error.

(** The entries of [validation_result['suggestions']]. *)
Module Suggestion.
Record t : Type := { type : str; description : str; recommendation : str }.
End Suggestion.

(** The dictionary [validation_result]. *)
Record ValidationResult : Type := {
  original_text : str;
  is_valid : bool;
  errors : list Error.t;
  suggestions : list Suggestion.t
}.

(** The attributes of an [AdvancedRequirementValidator]. *)
Record Validator : Type := {
  nlp : option Tagger;
  weak_words : list str;
  functional_keywords : list str;
  non_functional_keywords : list str
}.

(** [__init__]; [spacy_load] is what [spacy.load("es_core_news_sm")] does. *)
Definition init (spacy_load : outcome Tagger) : Validator :=
  {| nlp := match spacy_load with
            | Returned tagger => Some tagger
            | Raised _ => None
            end;
     weak_words :=
       map u ["algo"; "algún"; "algunos"; "tal vez"; "quizás"; "podría";
              "aproximadamente"; "más o menos"; "creo que"; "parece"]%string;
     functional_keywords :=
       map u ["debe"; "debería"; "tiene que"; "permitir"; "gestionar";
              "calcular"; "mostrar"; "registrar"; "generar"]%string;
     non_functional_keywords :=
       map u ["rendimiento"; "seguridad"; "escalabilidad"; "disponibilidad";
              "usabilidad"; "tiempo de respuesta"; "número de usuarios"]%string
  |}.

(** ** The validator *)

Section Validate.
Context {U : UnicodeData}.

(** [normalize_text]: lower case, decompose, drop the nonspacing marks. *)
Definition normalize_text (text : str) : str :=
  filter (fun c => negb (category_is_Mn c)) (normalize_NFD (lower text)).

(** [validation_result['is_valid'] = value] *)
Definition set_is_valid (value : bool) (r : ValidationResult) : ValidationResult :=
  {| original_text := original_text r;
     is_valid := value;
     errors := errors r;
     suggestions := suggestions r |}.

(** [validation_result['errors'].append(e)] *)
Definition errors_append (e : Error.t) (r : ValidationResult) : ValidationResult :=
  {| original_text := original_text r;
     is_valid := is_valid r;
     errors := errors r ++ [e];
     suggestions := suggestions r |}.

(** [validation_result['suggestions'].append(s)] *)
Definition suggestions_append (s : Suggestion.t) (r : ValidationResult)
  : ValidationResult :=
  {| original_text := original_text r;
     is_valid := is_valid r;
     errors := errors r;
     suggestions := suggestions r ++ [s] |}.

(** The five findings, as the dictionaries the checks append. *)
Definition insufficient_length : Error.t :=
  {| Error.type := u "Longitud Insuficiente";
     Error.description :=
       u "El requerimiento es demasiado corto para ser significativo.";
     Error.suggestion :=
       u "Expanda su requerimiento para incluir más detalles específicos." |}.

Definition ambiguity (ambiguous_words_found : list str) : Error.t :=
  {| Error.type := u "Ambigüedad";
     Error.description :=
       u "Se encontraron palabras ambiguas: "
       ++ join (u ", ") ambiguous_words_found;
     Error.suggestion :=
       u "Reemplace palabras vagas con términos precisos y concretos." |}.

Definition missing_keywords (keywords : list str) : Error.t :=
  {| Error.type := u "Ausencia de Palabras Clave";
     Error.description :=
       u "No se encontraron palabras características del tipo de requerimiento.";
     Error.suggestion :=
       u "Incluya palabras como: " ++ join (u ", ") (firstn 3 keywords) |}.

Definition lack_of_specificity : Error.t :=
  {| Error.type := u "Falta de Especificidad";
     Error.description :=
       u "El requerimiento carece de verbos o sustantivos específicos.";
     Error.suggestion :=
       u "Defina claramente la acción (verbo) y el objeto (sustantivo) del requerimiento." |}.

Definition measurability : Suggestion.t :=
  {| Suggestion.type := u "Medibilidad";
     Suggestion.description := u "No se detectaron métricas específicas.";
     Suggestion.recommendation :=
       u "Considere agregar métricas o criterios de aceptación medibles." |}.

(** Validación de longitud *)
Definition length_check (requirement : str) (validation_result : ValidationResult)
  : ValidationResult :=
  if length (split requirement) <? 5 then
    errors_append insufficient_length (set_is_valid false validation_result)
  else validation_result.

(** Detección de palabras ambiguas *)
Definition ambiguity_check (weak_words : list str) (normalized_req : str)
  (validation_result : ValidationResult) : ValidationResult :=
  let ambiguous_words_found :=
    filter (fun word => str_in word normalized_req) weak_words in
  match ambiguous_words_found with
  | [] => validation_result
  | _ :: _ =>
      errors_append (ambiguity ambiguous_words_found)
        (set_is_valid false validation_result)
  end.

(** Verificación de palabras clave *)
Definition keyword_check (keywords : list str) (normalized_req : str)
  (validation_result : ValidationResult) : ValidationResult :=
  let has_keywords :=
    existsb (fun keyword => str_in keyword normalized_req) keywords in
  if negb has_keywords then
    errors_append (missing_keywords keywords)
      (set_is_valid false validation_result)
  else validation_result.

Definition verbs (doc : list Token) : list Token :=
  filter (fun token => str_eqb (pos_ token) (u "VERB")) doc.

Definition nouns (doc : list Token) : list Token :=
  filter (fun token => str_eqb (pos_ token) (u "NOUN")) doc.

(** Verificación de especificidad, on the tokens of [self.nlp(requirement)] *)
Definition specificity_check (doc : list Token)
  (validation_result : ValidationResult) : ValidationResult :=
  if (length (verbs doc) =? 0) || (length (nouns doc) <? 2) then
    errors_append lack_of_specificity (set_is_valid false validation_result)
  else validation_result.

Definition metrics_indicators : list str :=
  map u ["máximo"; "mínimo"; "al menos"; "no más de"; "%"]%string.

(** Detección de métricas *)
Definition metrics_check (requirement : str) (is_functional : bool)
  (validation_result : ValidationResult) : ValidationResult :=
  let has_metrics :=
    existsb (fun metric => str_in metric (lower requirement)) metrics_indicators in
  if negb has_metrics && is_functional then
    suggestions_append measurability validation_result
  else validation_result.

Local Open Scope method_scope.

(** [validate_requirement(self, requirement, is_functional)] *)
Definition validate_requirement (requirement : str) (is_functional : bool)
  : method Validator ValidationResult :=
  let requirement := strip requirement in
  let normalized_req := normalize_text requirement in
  let validation_result :=
    {| original_text := requirement;
       is_valid := true;
       errors := [];
       suggestions := [] |} in
  let validation_result := length_check requirement validation_result in
  weak_words <- attr weak_words ;;
  let validation_result :=
    ambiguity_check weak_words normalized_req validation_result in
  keywords <- (if is_functional then attr functional_keywords
               else attr non_functional_keywords) ;;
  let validation_result :=
    keyword_check keywords normalized_req validation_result in
  nlp <- attr nlp ;;
  validation_result <-
    match nlp with
    | Some tagger =>
        doc <- call (tagger requirement) ;;
        ret (specificity_check doc validation_result)
    | None => ret validation_result
    end ;;
  ret (metrics_check requirement is_functional validation_result).

(** The report of a call. *)
Definition report (self : Validator) (requirement : str) (is_functional : bool)
  : outcome ValidationResult :=
  fst (validate_requirement requirement is_functional self).

(** The stages of a call, for stating what it computes: the keyword table
    it selects, the report after the three checks on the text alone, what
    the pipeline contributes, and the report built from all of it. *)
Definition selected_keywords (self : Validator) (is_functional : bool) : list str :=
  if is_functional then functional_keywords self
  else non_functional_keywords self.

Definition text_checks (self : Validator) (requirement : str)
  (is_functional : bool) : ValidationResult :=
  keyword_check (selected_keywords self is_functional) (normalize_text requirement)
    (ambiguity_check (weak_words self) (normalize_text requirement)
       (length_check requirement
          {| original_text := requirement;
             is_valid := true;
             errors := [];
             suggestions := [] |})).

Definition tagged (self : Validator) (requirement : str)
  : outcome (option (list Token)) :=
  match nlp self with
  | None => Returned None
  | Some tagger =>
      match tagger requirement with
      | Returned doc => Returned (Some doc)
      | Raised e => Raised e
      end
  end.

Definition grammar_checks (doc : option (list Token)) (r : ValidationResult)
  : ValidationResult :=
  match doc with
  | Some doc => specificity_check doc r
  | None => r
  end.

(** The errors of one type, in order. *)
Definition errors_of_type (type : str) (errs : list Error.t) : list Error.t :=
  filter (fun e => str_eqb (Error.type e) type) errs.

(** The entries of the weak-word table written with an accented letter. *)
Definition accented_weak_words : list str :=
  map u ["algún"; "quizás"; "podría"; "más o menos"]%string.

(** [is_valid] and [errors] agree: a check clears the flag exactly when it
    appends an error. *)
Definition consistent (r : ValidationResult) : Prop :=
  is_valid r = true <-> errors r = [].

(** An error, or a suggestion, of the given type is in the list. *)
Definition has_error (type : str) (errs : list Error.t) : Prop :=
  exists e, In e errs /\ Error.type e = type.

Definition has_suggestion (type : str) (sugs : list Suggestion.t) : Prop :=
  exists s, In s sugs /\ Suggestion.type s = type.

End Validate.

(** ** The Latin database meets the interface *)

Lemma byte_range_enumerated (c : N) :
  (c <= 0xFF)%N -> In c (map N.of_nat (seq 0 256)).
Proof.
  intros Hc. apply in_map_iff. exists (N.to_nat c). split.
  - apply N2Nat.id.
  - apply in_seq. lia.
Qed.

Lemma lookup_In c table d :
  Latin.lookup c table = Some d -> In (c, d) table.
Proof.
  induction table as [|[k v] table IH]; simpl; [discriminate|].
  destruct (N.eqb_spec c k) as [->|_].
  - intros [= ->]. now left.
  - intros H. right. now apply IH.
Qed.

Lemma latin_decompose_decomposed x c :
  In c (Latin.decompose x) -> latin1_decomposable c = false.
Proof.
  unfold Latin.decompose.
  destruct (Latin.lookup x Latin.decompositions) as [d|] eqn:E.
  - intros Hc. apply lookup_In in E.
    assert (Hall : forallb
              (fun kv => forallb (fun c => negb (latin1_decomposable c)) (snd kv))
              Latin.decompositions = true) by (vm_compute; reflexivity).
    rewrite forallb_forall in Hall. specialize (Hall _ E). simpl in Hall.
    rewrite forallb_forall in Hall. specialize (Hall _ Hc).
    now apply negb_true_iff in Hall.
  - intros [<-|[]].
    destruct (latin1_decomposable x) eqn:Hx; [|reflexivity].
    assert (Hr : (x <= 0xFF)%N).
    { unfold latin1_decomposable in Hx.
      apply andb_true_iff in Hx as [Hx _]. apply andb_true_iff in Hx as [_ Hx].
      now apply N.leb_le in Hx. }
    assert (Hall : forallb
              (fun c => implb (latin1_decomposable c)
                          (match Latin.lookup c Latin.decompositions with
                           | Some _ => true
                           | None => false
                           end))
              (map N.of_nat (seq 0 256)) = true) by (vm_compute; reflexivity).
    rewrite forallb_forall in Hall.
    specialize (Hall _ (byte_range_enumerated Hr)).
    rewrite Hx, E in Hall. discriminate.
Qed.

Lemma latin_NFD_decomposed s c :
  In c (Latin.normalize_NFD s) -> latin1_decomposable c = false.
Proof.
  unfold Latin.normalize_NFD. rewrite in_flat_map.
  intros [x [_ Hc]]. exact (latin_decompose_decomposed x c Hc).
Qed.

#[export] Instance latin : UnicodeData :=
  {| isspace := Latin.isspace;
     lower := Latin.lower;
     normalize_NFD := Latin.normalize_NFD;
     category_is_Mn := Latin.category_is_Mn;
     NFD_decomposed := latin_NFD_decomposed |}.

(** ** Concrete validators

    A validator whose pipeline failed to load, and one with a small
    lexicon tagger standing in for the spaCy pipeline. *)
Module Demo.

Definition lexicon : list (str * str) :=
  [(u "sistema", u "NOUN"); (u "total", u "NOUN"); (u "ventas", u "NOUN");
   (u "precisión", u "NOUN"); (u "usuarios", u "NOUN");
   (u "calcular", u "VERB"); (u "mostrar", u "VERB");
   (u "debe", u "AUX"); (u "el", u "DET"); (u "de", u "ADP")].

Fixpoint tag (word : str) (entries : list (str * str)) : str :=
  match entries with
  | [] => u "X"
  | (w, pos) :: entries' => if str_eqb word w then pos else tag word entries'
  end.

Definition tagger : Tagger :=
  fun sentence =>
    Returned (map (fun w => {| text := w; pos_ := tag (lower w) lexicon |})
                (split sentence)).

Definition broken_tagger : Tagger :=
  fun _ => Raised (u "tagger failure").

(** The requirements of the specification's end-to-end examples. *)
Definition sales : str :=
  u "El sistema debe calcular el total de ventas mensuales con precisión".
Definition vague : str := u "algo rapido".

Definition degraded : Validator := init (Raised (u "model not found")).
Definition tagging : Validator := init (Returned tagger).
Definition faulty : Validator := init (Returned broken_tagger).

End Demo.

(** * Properties *)

(** ** Strings *)

Lemma str_eqb_eq (a b : str) : str_eqb a b = true <-> a = b.
Proof.
  revert b. induction a as [|x a IH]; intros [|y b]; simpl;
    try (split; [discriminate | congruence]); [tauto|].
  rewrite andb_true_iff, N.eqb_eq, IH. split.
  - intros [-> ->]. reflexivity.
  - intros [= -> ->]. auto.
Qed.

Lemma startswith_incl (prefix s : str) :
  startswith prefix s = true -> incl prefix s.
Proof.
  revert s. induction prefix as [|p prefix IH]; intros s H.
  - intros c [].
  - destruct s as [|c s]; simpl in H; [discriminate|].
    apply andb_true_iff in H as [Hpc H]. apply N.eqb_eq in Hpc. subst c.
    intros c [<-|Hc]; [now left | right; exact (IH s H c Hc)].
Qed.

(** A substring of [s] is made of characters of [s]. *)
Lemma str_in_incl (sub s : str) : str_in sub s = true -> incl sub s.
Proof.
  induction s as [|c s IH]; simpl; rewrite orb_true_iff.
  - intros [H|H]; [exact (startswith_incl _ _ H) | discriminate].
  - intros [H|H]; [exact (startswith_incl _ _ H)|].
    intros x Hx. right. exact (IH H x Hx).
Qed.

Section StringFacts.
Context {U : UnicodeData}.

Lemma split_from_spaces (ws word : str) :
  forallb isspace ws = true ->
  split_from ws word = match word with [] => [] | _ => [rev word] end.
Proof.
  revert word. induction ws as [|c ws IH]; intros word H; simpl in *.
  - reflexivity.
  - apply andb_true_iff in H as [Hc H]. rewrite Hc.
    destruct word; rewrite (IH [] H); reflexivity.
Qed.

Lemma split_from_app_spaces (s ws word : str) :
  forallb isspace ws = true ->
  split_from (s ++ ws) word = split_from s word.
Proof.
  intros H. revert word. induction s as [|c s IH]; intros word; simpl.
  - apply split_from_spaces, H.
  - destruct (isspace c); [destruct word|]; now rewrite IH.
Qed.

Lemma split_lstrip (s : str) : split (lstrip s) = split s.
Proof.
  unfold split, lstrip. induction s as [|c s IH]; simpl; [reflexivity|].
  destruct (isspace c) eqn:Hc; [exact IH|].
  simpl. now rewrite Hc.
Qed.

(** What [dropwhile] removes: a prefix on which the test holds. *)
Lemma dropwhile_split {A} (p : A -> bool) (l : list A) :
  exists dropped, l = dropped ++ dropwhile p l /\ forallb p dropped = true.
Proof.
  induction l as [|x l [d [Hl Hd]]]; simpl.
  - exists []. auto.
  - destruct (p x) eqn:Hx.
    + exists (x :: d). simpl. rewrite Hx, Hd. split; [now f_equal | reflexivity].
    + exists []. auto.
Qed.

Lemma dropwhile_head {A} (p : A -> bool) (l : list A) (x : A) :
  hd_error (dropwhile p l) = Some x -> p x = false.
Proof.
  induction l as [|y l IH]; simpl; [discriminate|].
  destruct (p y) eqn:Hy; [exact IH|].
  simpl. now intros [= <-].
Qed.

Lemma forallb_rev {A} (p : A -> bool) (l : list A) :
  forallb p (rev l) = forallb p l.
Proof.
  induction l as [|x l IH]; simpl; [reflexivity|].
  rewrite forallb_app, IH. simpl. rewrite andb_true_r. apply andb_comm.
Qed.

Lemma rstrip_split (s : str) :
  exists trail, s = rstrip s ++ trail /\ forallb isspace trail = true.
Proof.
  unfold rstrip.
  destruct (dropwhile_split isspace (rev s)) as [d [Hs Hd]].
  exists (rev d). split.
  - rewrite <- rev_app_distr, <- Hs. symmetry. apply rev_involutive.
  - now rewrite forallb_rev.
Qed.

Lemma split_rstrip (s : str) : split (rstrip s) = split s.
Proof.
  destruct (rstrip_split s) as [trail [Hs Ht]].
  unfold split. rewrite Hs at 2. symmetry. now apply split_from_app_spaces.
Qed.

(** Trimming does not change the words of a string. *)
Lemma split_strip (s : str) : split (strip s) = split s.
Proof. unfold strip. now rewrite split_rstrip, split_lstrip. Qed.

(** [strip] removes whitespace at both ends and nothing else. *)
Lemma strip_spec (s : str) :
  exists lead trail,
    s = lead ++ strip s ++ trail
    /\ forallb isspace lead = true
    /\ forallb isspace trail = true.
Proof.
  unfold strip.
  destruct (dropwhile_split isspace s) as [lead [Hs Hl]].
  destruct (rstrip_split (lstrip s)) as [trail [Hr Ht]].
  exists lead, trail. repeat split; auto.
  unfold lstrip in *. rewrite <- Hr. exact Hs.
Qed.

Lemma dropwhile_id {A} (p : A -> bool) (l : list A) :
  (forall x, hd_error l = Some x -> p x = false) -> dropwhile p l = l.
Proof.
  destruct l as [|x l]; simpl; [reflexivity|].
  intros H. now rewrite (H x eq_refl).
Qed.

(** A string with no whitespace at either end is its own [strip]. *)
Lemma strip_id (s : str) :
  (forall c, hd_error s = Some c -> isspace c = false) ->
  (forall c, hd_error (rev s) = Some c -> isspace c = false) ->
  strip s = s.
Proof.
  intros Hfirst Hlast. unfold strip, lstrip, rstrip.
  rewrite (dropwhile_id isspace s Hfirst).
  rewrite (dropwhile_id isspace (rev s) Hlast).
  apply rev_involutive.
Qed.

(** The normal form holds no Latin-1 letter with an accent. *)
Lemma normalize_text_decomposed (text : str) (c : code_point) :
  In c (normalize_text text) -> latin1_decomposable c = false.
Proof.
  unfold normalize_text. intros H. apply filter_In in H as [H _].
  exact (NFD_decomposed _ _ H).
Qed.

(** A word with such a letter is in no normal form. *)
Lemma accented_never_matches (word text : str) :
  existsb latin1_decomposable word = true ->
  str_in word (normalize_text text) = false.
Proof.
  intros H. destruct (str_in word (normalize_text text)) eqn:E; [|reflexivity].
  apply existsb_exists in H as [c [Hc Hd]].
  apply str_in_incl in E.
  rewrite (normalize_text_decomposed text c (E c Hc)) in Hd. discriminate.
Qed.

End StringFacts.

(** ** The shape of a report *)

Section Reports.
Context {U : UnicodeData}.

(** A call leaves [self] as it was, and its report is that of the five
    checks run in order, unless the pipeline raises. *)
Lemma validate_requirement_run self requirement is_functional :
  validate_requirement requirement is_functional self =
  (match tagged self (strip requirement) with
   | Returned doc =>
       Returned
         (metrics_check (strip requirement) is_functional
            (grammar_checks doc
               (text_checks self (strip requirement) is_functional)))
   | Raised e => Raised e
   end, self).
Proof.
  unfold validate_requirement, tagged, text_checks, selected_keywords,
    grammar_checks, bind, attr, call, ret.
  destruct is_functional; simpl;
    (destruct (nlp self) as [tagger|]; simpl; [|reflexivity]);
    destruct (tagger (strip requirement)); reflexivity.
Qed.

Lemma report_returned self requirement is_functional r :
  report self requirement is_functional = Returned r ->
  exists doc,
    tagged self (strip requirement) = Returned doc
    /\ r = metrics_check (strip requirement) is_functional
             (grammar_checks doc
                (text_checks self (strip requirement) is_functional)).
Proof.
  unfold report. rewrite validate_requirement_run. simpl.
  destruct (tagged self (strip requirement)) as [doc|e]; [|discriminate].
  intros [= <-]. now exists doc.
Qed.

(** Each check appends at most its own finding. *)
Lemma length_check_errors requirement r :
  errors (length_check requirement r) =
  errors r ++ (if length (split requirement) <? 5
               then [insufficient_length] else []).
Proof.
  unfold length_check. destruct (_ <? 5); simpl; [reflexivity|].
  now rewrite app_nil_r.
Qed.

Lemma ambiguity_check_errors weak normalized r :
  errors (ambiguity_check weak normalized r) =
  errors r ++ (match filter (fun word => str_in word normalized) weak with
               | [] => []
               | found => [ambiguity found]
               end).
Proof.
  unfold ambiguity_check. destruct (filter _ weak); simpl; [|reflexivity].
  now rewrite app_nil_r.
Qed.

Lemma keyword_check_errors keywords normalized r :
  errors (keyword_check keywords normalized r) =
  errors r ++ (if existsb (fun keyword => str_in keyword normalized) keywords
               then [] else [missing_keywords keywords]).
Proof.
  unfold keyword_check. destruct (existsb _ keywords); simpl; [|reflexivity].
  now rewrite app_nil_r.
Qed.

Lemma specificity_check_errors doc r :
  errors (specificity_check doc r) =
  errors r ++ (if (length (verbs doc) =? 0) || (length (nouns doc) <? 2)
               then [lack_of_specificity] else []).
Proof.
  unfold specificity_check. destruct (_ || _); simpl; [reflexivity|].
  now rewrite app_nil_r.
Qed.

Lemma metrics_check_errors requirement is_functional r :
  errors (metrics_check requirement is_functional r) = errors r.
Proof. unfold metrics_check. now destruct (_ && _). Qed.

Lemma metrics_check_is_valid requirement is_functional r :
  is_valid (metrics_check requirement is_functional r) = is_valid r.
Proof. unfold metrics_check. now destruct (_ && _). Qed.

Lemma metrics_check_original_text requirement is_functional r :
  original_text (metrics_check requirement is_functional r) = original_text r.
Proof. unfold metrics_check. now destruct (_ && _). Qed.

Lemma metrics_check_suggestions requirement is_functional r :
  suggestions (metrics_check requirement is_functional r) =
  suggestions r
  ++ (if negb (existsb (fun metric => str_in metric (lower requirement))
                 metrics_indicators) && is_functional
      then [measurability] else []).
Proof.
  unfold metrics_check. destruct (_ && _); simpl; [reflexivity|].
  now rewrite app_nil_r.
Qed.

Lemma grammar_checks_errors doc r :
  errors (grammar_checks doc r) =
  errors r ++ (match doc with
               | Some doc =>
                   if (length (verbs doc) =? 0) || (length (nouns doc) <? 2)
                   then [lack_of_specificity] else []
               | None => []
               end).
Proof.
  destruct doc as [doc|]; simpl.
  - apply specificity_check_errors.
  - now rewrite app_nil_r.
Qed.

Lemma text_checks_errors self requirement is_functional :
  errors (text_checks self requirement is_functional) =
  (if length (split requirement) <? 5 then [insufficient_length] else [])
  ++ (match filter (fun word => str_in word (normalize_text requirement))
               (weak_words self) with
      | [] => []
      | found => [ambiguity found]
      end)
  ++ (if existsb (fun keyword => str_in keyword (normalize_text requirement))
           (selected_keywords self is_functional)
      then [] else [missing_keywords (selected_keywords self is_functional)]).
Proof.
  unfold text_checks.
  rewrite keyword_check_errors, ambiguity_check_errors, length_check_errors.
  simpl. now rewrite <- app_assoc.
Qed.

(** The checks before the last one make no suggestion and keep the text. *)
Lemma error_checks_keep self requirement is_functional doc :
  let r := grammar_checks doc (text_checks self requirement is_functional) in
  suggestions r = [] /\ original_text r = requirement.
Proof.
  unfold text_checks, keyword_check, ambiguity_check, length_check.
  destruct doc as [doc|]; simpl; unfold specificity_check;
    repeat match goal with
      | |- context [if ?c then _ else _] => destruct c
      | |- context [match filter ?f ?l with _ => _ end] => destruct (filter f l)
      end; simpl; auto.
Qed.

(** Consistency is kept by every check. *)
Lemma flagged_error_consistent e r :
  consistent (errors_append e (set_is_valid false r)).
Proof.
  unfold consistent. simpl. split; [discriminate|].
  intros H. now apply app_eq_nil in H as [_ H].
Qed.

Lemma length_check_consistent requirement r :
  consistent r -> consistent (length_check requirement r).
Proof.
  unfold length_check. destruct (_ <? 5); auto using flagged_error_consistent.
Qed.

Lemma ambiguity_check_consistent weak normalized r :
  consistent r -> consistent (ambiguity_check weak normalized r).
Proof.
  unfold ambiguity_check. destruct (filter _ weak);
    auto using flagged_error_consistent.
Qed.

Lemma keyword_check_consistent keywords normalized r :
  consistent r -> consistent (keyword_check keywords normalized r).
Proof.
  unfold keyword_check. destruct (negb _); auto using flagged_error_consistent.
Qed.

Lemma specificity_check_consistent doc r :
  consistent r -> consistent (specificity_check doc r).
Proof.
  unfold specificity_check. destruct (_ || _);
    auto using flagged_error_consistent.
Qed.

Lemma grammar_checks_consistent doc r :
  consistent r -> consistent (grammar_checks doc r).
Proof.
  destruct doc; simpl; auto using specificity_check_consistent.
Qed.

Lemma metrics_check_consistent requirement is_functional r :
  consistent r -> consistent (metrics_check requirement is_functional r).
Proof.
  unfold consistent.
  now rewrite metrics_check_is_valid, metrics_check_errors.
Qed.

Lemma text_checks_consistent self requirement is_functional :
  consistent (text_checks self requirement is_functional).
Proof.
  unfold text_checks.
  apply keyword_check_consistent, ambiguity_check_consistent,
    length_check_consistent.
  unfold consistent. simpl. tauto.
Qed.

(** Errors of a given type in a list put together from the checks. *)
Lemma has_error_app type (l1 l2 : list Error.t) :
  has_error type (l1 ++ l2) <-> has_error type l1 \/ has_error type l2.
Proof.
  unfold has_error. split.
  - intros [e [He Ht]]. apply in_app_or in He as [He|He]; eauto.
  - intros [[e [He Ht]]|[e [He Ht]]]; exists e; split; auto using in_or_app.
Qed.

Lemma has_error_nil type : has_error type [] <-> False.
Proof. unfold has_error. split; [intros [e [[] _]] | tauto]. Qed.

Lemma has_error_one type e : has_error type [e] <-> Error.type e = type.
Proof.
  unfold has_error. split.
  - now intros [e' [[<-|[]] Ht]].
  - intros Ht. exists e. split; [now left | exact Ht].
Qed.

End Reports.

Section Findings.
Context {U : UnicodeData}.

(** The errors of a report, check by check. *)
Lemma report_errors self requirement is_functional r :
  report self requirement is_functional = Returned r ->
  exists doc,
    tagged self (strip requirement) = Returned doc
    /\ errors r =
       (if length (split (strip requirement)) <? 5
        then [insufficient_length] else [])
       ++ (match filter
                    (fun word => str_in word (normalize_text (strip requirement)))
                    (weak_words self) with
           | [] => []
           | found => [ambiguity found]
           end)
       ++ (if existsb
                (fun keyword =>
                   str_in keyword (normalize_text (strip requirement)))
                (selected_keywords self is_functional)
           then []
           else [missing_keywords (selected_keywords self is_functional)])
       ++ (match doc with
           | Some doc =>
               if (length (verbs doc) =? 0) || (length (nouns doc) <? 2)
               then [lack_of_specificity] else []
           | None => []
           end).
Proof.
  intros H. apply report_returned in H as [doc [Hdoc ->]].
  exists doc. split; [exact Hdoc|].
  rewrite metrics_check_errors, grammar_checks_errors, text_checks_errors.
  now rewrite <- !app_assoc.
Qed.

Lemma or_iff_both (A A' B B' : Prop) :
  (A <-> A') -> (B <-> B') -> (A \/ B <-> A' \/ B').
Proof. tauto. Qed.

(** Which types of error a report holds, and when. *)
Lemma has_error_report self requirement is_functional r type :
  report self requirement is_functional = Returned r ->
  exists doc,
    tagged self (strip requirement) = Returned doc
    /\ (has_error type (errors r) <->
        (type = u "Longitud Insuficiente"
         /\ length (split (strip requirement)) < 5)
        \/ (type = u "Ambigüedad"
            /\ filter (fun word =>
                         str_in word (normalize_text (strip requirement)))
                 (weak_words self) <> [])
        \/ (type = u "Ausencia de Palabras Clave"
            /\ forall keyword,
                In keyword (selected_keywords self is_functional) ->
                str_in keyword (normalize_text (strip requirement)) = false)
        \/ (type = u "Falta de Especificidad"
            /\ exists tokens,
                doc = Some tokens
                /\ (length (verbs tokens) = 0 \/ length (nouns tokens) < 2))).
Proof.
  intros H. apply report_errors in H as [doc [Hdoc ->]].
  exists doc. split; [exact Hdoc|].
  rewrite !has_error_app.
  apply or_iff_both; [|apply or_iff_both; [|apply or_iff_both]].
  - destruct (Nat.ltb_spec (length (split (strip requirement))) 5).
    + rewrite has_error_one. simpl. intuition congruence.
    + rewrite has_error_nil. intuition lia.
  - destruct (filter _ (weak_words self)) as [|w found].
    + rewrite has_error_nil. intuition congruence.
    + rewrite has_error_one. simpl. intuition congruence.
  - destruct (existsb _ (selected_keywords self is_functional)) eqn:E.
    + rewrite has_error_nil. split; [tauto|]. intros [_ Hno].
      apply existsb_exists in E as [k [Hk Hin]].
      rewrite (Hno k Hk) in Hin. discriminate.
    + rewrite has_error_one. simpl. split; [|intuition congruence].
      intros <-. split; [reflexivity|]. intros k Hk.
      destruct (str_in k _) eqn:Hin; [|reflexivity].
      assert (existsb
                (fun keyword =>
                   str_in keyword (normalize_text (strip requirement)))
                (selected_keywords self is_functional) = true)
        by (apply existsb_exists; eauto).
      congruence.
  - destruct doc as [tokens|].
    + assert (Hcond :
          (length (verbs tokens) =? 0) || (length (nouns tokens) <? 2) = true
          <-> length (verbs tokens) = 0 \/ length (nouns tokens) < 2)
        by (rewrite orb_true_iff, Nat.eqb_eq, Nat.ltb_lt; tauto).
      destruct ((length (verbs tokens) =? 0) || (length (nouns tokens) <? 2)).
      * rewrite has_error_one. simpl. split.
        -- intros <-. split; [reflexivity|]. exists tokens.
           split; [reflexivity | now apply Hcond].
        -- now intros [-> _].
      * rewrite has_error_nil. split; [tauto|].
        intros [_ [tokens' [[= <-] Hc]]]. apply Hcond in Hc. discriminate.
    + rewrite has_error_nil. split; [tauto|].
      intros [_ [tokens [Hd _]]]. discriminate.
Qed.

End Findings.

(** The five finding types are different strings. *)
Ltac types_differ :=
  match goal with
  | H : u _ = u _ |- _ => vm_compute in H; discriminate H
  end.

(** * The claims *)

Section Claims.
Context {U : UnicodeData}.

(** The last check only adds to the suggestions. *)
Lemma report_before_metrics self requirement is_functional r :
  report self requirement is_functional = Returned r ->
  exists r0,
    r = metrics_check (strip requirement) is_functional r0
    /\ suggestions r0 = []
    /\ is_valid r = is_valid r0
    /\ errors r = errors r0.
Proof.
  intros H. apply report_returned in H as [doc [_ ->]].
  eexists. split; [reflexivity|].
  split; [apply error_checks_keep|].
  split; [apply metrics_check_is_valid | apply metrics_check_errors].
Qed.

(** C1: in every report that [validate_requirement] returns, [is_valid] is
    true exactly when [errors] is empty; the report comes from one without
    suggestions by the measurability check, which changes neither
    [is_valid] nor [errors], so the suggestions have no part in the flag. *)
Theorem is_valid_iff_no_errors self requirement is_functional r :
  report self requirement is_functional = Returned r ->
  (is_valid r = true <-> errors r = [])
  /\ exists r0,
      r = metrics_check (strip requirement) is_functional r0
      /\ suggestions r0 = []
      /\ is_valid r = is_valid r0
      /\ errors r = errors r0.
Proof.
  intros H. split; [|exact (report_before_metrics _ _ _ H)].
  apply report_returned in H as [doc [_ ->]].
  apply metrics_check_consistent, grammar_checks_consistent,
    text_checks_consistent.
Qed.

(** C3, as amended: [original_text] is the input with the whitespace at its
    two ends removed, as [strip] leaves it: the input is some whitespace,
    then [original_text], then some whitespace; and it is the input itself
    when the input neither begins nor ends with whitespace. *)
Theorem original_text_is_stripped self requirement is_functional r :
  report self requirement is_functional = Returned r ->
  original_text r = strip requirement
  /\ (exists lead trail,
        requirement = lead ++ original_text r ++ trail
        /\ forallb isspace lead = true
        /\ forallb isspace trail = true)
  /\ ((forall c, hd_error requirement = Some c -> isspace c = false) ->
      (forall c, hd_error (rev requirement) = Some c -> isspace c = false) ->
      original_text r = requirement).
Proof.
  intros H. apply report_returned in H as [doc [_ ->]].
  rewrite metrics_check_original_text.
  destruct (error_checks_keep self (strip requirement) is_functional doc)
    as [_ ->].
  split; [reflexivity|]. split; [apply strip_spec|]. apply strip_id.
Qed.

(** C6: the report holds the error "Longitud Insuficiente" exactly when the
    input, trimmed and split on whitespace, has fewer than 5 words;
    trimming does not change the words, so an input of exactly 4 words has
    the error and one of exactly 5 words does not. *)
Theorem length_error_iff_under_five_words self requirement is_functional r :
  report self requirement is_functional = Returned r ->
  split (strip requirement) = split requirement
  /\ (has_error (u "Longitud Insuficiente") (errors r)
      <-> length (split (strip requirement)) < 5)
  /\ (length (split requirement) = 4 ->
      has_error (u "Longitud Insuficiente") (errors r))
  /\ (length (split requirement) = 5 ->
      ~ has_error (u "Longitud Insuficiente") (errors r)).
Proof.
  intros H.
  assert (Hiff : has_error (u "Longitud Insuficiente") (errors r)
                 <-> length (split (strip requirement)) < 5).
  { destruct (@has_error_report _ _ _ _ _ (u "Longitud Insuficiente") H)
      as [doc [_ Hiff]].
    rewrite Hiff. split.
    - intros [[_ Hlen]|[[Ht _]|[[Ht _]|[Ht _]]]]; [exact Hlen | types_differ ..].
    - intros Hlen. left. split; [reflexivity | exact Hlen]. }
  split; [apply split_strip|]. split; [exact Hiff|].
  rewrite Hiff, split_strip. lia.
Qed.

End Claims.

Section MoreClaims.
Context {U : UnicodeData}.

(** Every error of a report is one of the four that the checks append. *)
Lemma error_in_report self requirement is_functional r e :
  report self requirement is_functional = Returned r ->
  In e (errors r) ->
  e = insufficient_length
  \/ (exists found,
        found = filter
                  (fun word => str_in word (normalize_text (strip requirement)))
                  (weak_words self)
        /\ found <> [] /\ e = ambiguity found)
  \/ e = missing_keywords (selected_keywords self is_functional)
  \/ e = lack_of_specificity.
Proof.
  intros H He. apply report_errors in H as [doc [_ Herr]].
  rewrite Herr in He. clear Herr.
  repeat (apply in_app_or in He as [He|He]).
  - left.
    destruct (_ <? 5); [|destruct He]. destruct He as [<-|[]]. reflexivity.
  - right; left.
    destruct (filter _ (weak_words self)) as [|w found] eqn:E; [destruct He|].
    destruct He as [<-|[]]. exists (w :: found).
    split; [reflexivity|]. split; [discriminate | reflexivity].
  - right; right; left.
    destruct (existsb _ _); [destruct He|]. destruct He as [<-|[]]. reflexivity.
  - right; right; right.
    destruct doc as [doc|]; [|destruct He].
    destruct (_ || _); [|destruct He]. destruct He as [<-|[]]. reflexivity.
Qed.

(** The suggestions of a report. *)
Lemma report_suggestions self requirement is_functional r :
  report self requirement is_functional = Returned r ->
  suggestions r =
  if negb (existsb (fun metric => str_in metric (lower (strip requirement)))
             metrics_indicators) && is_functional
  then [measurability] else [].
Proof.
  intros H. apply report_returned in H as [doc [_ ->]].
  rewrite metrics_check_suggestions.
  now destruct (error_checks_keep self (strip requirement) is_functional doc)
    as [-> _].
Qed.


(** C5: a report has a suggestion of type "Medibilidad" exactly when the
    requirement is functional and none of the metric indicators occurs in
    the lower-cased trimmed text (lower-cased only: accents are kept); no
    error has that type; the check that appends it leaves [is_valid] and
    [errors] as they were; a non-functional requirement has no suggestion
    at all. *)
Theorem measurability_iff self requirement is_functional r :
  report self requirement is_functional = Returned r ->
  (has_suggestion (u "Medibilidad") (suggestions r)
   <-> is_functional = true
       /\ forall metric,
           In metric (map u ["máximo"; "mínimo"; "al menos"; "no más de"; "%"]%string) ->
           str_in metric (lower (strip requirement)) = false)
  /\ ~ has_error (u "Medibilidad") (errors r)
  /\ (exists r0,
        r = metrics_check (strip requirement) is_functional r0
        /\ suggestions r0 = []
        /\ is_valid r = is_valid r0
        /\ errors r = errors r0)
  /\ (is_functional = false -> suggestions r = []).
Proof.
  intros H. split; [|split; [|split]].
  - rewrite (report_suggestions _ _ _ H). fold metrics_indicators.
    destruct (existsb _ metrics_indicators) eqn:E; simpl.
    + split.
      * intros [s [[] _]].
      * intros [_ Hno]. apply existsb_exists in E as [m [Hm Hin]].
        rewrite (Hno m Hm) in Hin. discriminate.
    + assert (Hno : forall metric, In metric metrics_indicators ->
                      str_in metric (lower (strip requirement)) = false).
      { intros m Hm. destruct (str_in m _) eqn:Hin; [|reflexivity].
        assert (existsb
                  (fun metric => str_in metric (lower (strip requirement)))
                  metrics_indicators = true)
          by (apply existsb_exists; eauto).
        congruence. }
      destruct is_functional.
      * split; [auto|]. intros _. exists measurability. split; [now left|].
        reflexivity.
      * split; [intros [s [[] _]] | intros [Hf _]; discriminate].
  - destruct (@has_error_report _ _ _ _ _ (u "Medibilidad") H)
      as [doc [_ Hiff]].
    rewrite Hiff.
    intros [[Ht _]|[[Ht _]|[[Ht _]|[Ht _]]]]; types_differ.
  - exact (report_before_metrics _ _ _ H).
  - intros ->. rewrite (report_suggestions _ _ _ H). now rewrite andb_false_r.
Qed.

(** C7: the keyword check works on [functional_keywords] when
    [is_functional] is true and on [non_functional_keywords] otherwise; the
    report has the error "Ausencia de Palabras Clave" exactly when no
    keyword of that table is a substring of the normalized text, and the
    suggestion of that error lists the first three keywords of the table,
    in table order, joined by commas. *)
Theorem missing_keywords_iff self requirement is_functional r :
  report self requirement is_functional = Returned r ->
  let keywords := if is_functional then functional_keywords self
                  else non_functional_keywords self in
  (has_error (u "Ausencia de Palabras Clave") (errors r)
   <-> forall keyword,
        In keyword keywords ->
        str_in keyword (normalize_text (strip requirement)) = false)
  /\ (forall e,
        In e (errors r) ->
        Error.type e = u "Ausencia de Palabras Clave" ->
        Error.suggestion e =
        u "Incluya palabras como: " ++ join (u ", ") (firstn 3 keywords)).
Proof.
  intros H keywords. split.
  - destruct (@has_error_report _ _ _ _ _ (u "Ausencia de Palabras Clave") H)
      as [doc [_ Hiff]].
    rewrite Hiff. split.
    + intros [[Ht _]|[[Ht _]|[[_ Hno]|[Ht _]]]];
        [types_differ .. | exact Hno | types_differ].
    + intros Hno. right; right; left. split; [reflexivity | exact Hno].
  - intros e He Ht.
    destruct (error_in_report _ _ _ _ H He) as [->|[[found [_ [_ ->]]]|[->| ->]]];
      simpl in Ht; try types_differ.
    reflexivity.
Qed.

(** The ambiguity check sees the requirement through its normal form only:
    two requirements with the same normal form, such as two that differ in
    case or accents, get the same error "Ambigüedad", or none. *)
Lemma ambiguity_follows_normal_form self a a' functional functional' r r' :
  normalize_text (strip a) = normalize_text (strip a') ->
  report self a functional = Returned r ->
  report self a' functional' = Returned r' ->
  errors_of_type (u "Ambigüedad") (errors r)
  = errors_of_type (u "Ambigüedad") (errors r').
Proof.
  intros Hnf H H'.
  apply report_errors in H as [doc [_ ->]].
  apply report_errors in H' as [doc' [_ ->]].
  assert (Hl : str_eqb (u "Longitud Insuficiente") (u "Ambigüedad") = false)
    by (vm_compute; reflexivity).
  assert (Ha : str_eqb (u "Ambigüedad") (u "Ambigüedad") = true)
    by (vm_compute; reflexivity).
  assert (Hk : str_eqb (u "Ausencia de Palabras Clave") (u "Ambigüedad") = false)
    by (vm_compute; reflexivity).
  assert (Hs : str_eqb (u "Falta de Especificidad") (u "Ambigüedad") = false)
    by (vm_compute; reflexivity).
  unfold errors_of_type. rewrite !filter_app, Hnf.
  repeat match goal with
    | |- context [if ?c then _ else _] => destruct c
    | |- context [match ?d with Some _ => _ | None => _ end] => destruct d
    end; simpl; rewrite ?Hl, ?Hk, ?Hs; reflexivity.
Qed.

(** C8: with the tables of [__init__], none of 'algún', 'quizás', 'podría',
    'más o menos' is a substring of the normalized text of any input, and
    the error "Ambigüedad" of a report, when there is one, lists matched
    entries of the weak-word table none of which is one of these four. *)
Theorem accented_weak_words_never_listed spacy_load requirement is_functional r :
  report (init spacy_load) requirement is_functional = Returned r ->
  (forall word,
      In word accented_weak_words ->
      str_in word (normalize_text (strip requirement)) = false)
  /\ (forall e,
        In e (errors r) ->
        Error.type e = u "Ambigüedad" ->
        exists found,
          Error.description e =
          u "Se encontraron palabras ambiguas: " ++ join (u ", ") found
          /\ forall word,
              In word found ->
              In word (weak_words (init spacy_load))
              /\ ~ In word accented_weak_words).
Proof.
  intros H.
  assert (Hnever : forall word,
             In word accented_weak_words ->
             str_in word (normalize_text (strip requirement)) = false).
  { intros word Hw. apply accented_never_matches.
    assert (Hall : forallb (existsb latin1_decomposable) accented_weak_words
                   = true) by (vm_compute; reflexivity).
    rewrite forallb_forall in Hall. exact (Hall word Hw). }
  split; [exact Hnever|].
  intros e He Ht.
  destruct (error_in_report _ _ _ _ H He) as [->|[[found [Hf [_ ->]]]|[->| ->]]];
    simpl in Ht; try types_differ.
  exists found. split; [reflexivity|].
  intros word Hw. rewrite Hf in Hw. apply filter_In in Hw as [Hin Hmatch].
  split; [exact Hin|].
  intros Hacc. rewrite (Hnever word Hacc) in Hmatch. discriminate.
Qed.

End MoreClaims.

(** * Concrete runs, on the Latin database *)

(** The end-to-end examples of the specification. *)
Example sales_report :
  exists r,
    report Demo.tagging Demo.sales true = Returned r
    /\ is_valid r = true
    /\ errors r = []
    /\ suggestions r = [measurability].
Proof. eexists. split; [vm_compute; reflexivity|]. now vm_compute. Qed.

Example vague_report :
  exists r,
    report Demo.tagging Demo.vague true = Returned r
    /\ is_valid r = false
    /\ map Error.type (errors r) =
       [u "Longitud Insuficiente"; u "Ambigüedad";
        u "Ausencia de Palabras Clave"; u "Falta de Especificidad"]
    /\ (exists e, In e (errors r) /\ e = ambiguity [u "algo"]).
Proof.
  eexists. split; [vm_compute; reflexivity|].
  split; [now vm_compute|]. split; [now vm_compute|].
  eexists. split; [right; left; reflexivity | now vm_compute].
Qed.

(** The normal form is lower case without accents; the weak words and
    keywords with an accent are the ones it cannot hold. *)
Example normalize_text_example :
  normalize_text (u "Quizás PODRÍA más o menos") = u "quizas podria mas o menos".
Proof. now vm_compute. Qed.

Example accented_entries :
  filter (existsb latin1_decomposable) (weak_words Demo.degraded)
  = accented_weak_words
  /\ filter (existsb latin1_decomposable)
       (functional_keywords Demo.degraded ++ non_functional_keywords Demo.degraded)
     = map u ["debería"; "número de usuarios"]%string.
Proof. split; now vm_compute. Qed.

(** The metric indicators are matched in any case, with their accents. *)
Example metrics_case_and_accents :
  (exists r, report Demo.degraded (u "El sistema debe tardar como MÁXIMO dos segundos") true
             = Returned r /\ suggestions r = [])
  /\ (exists r, report Demo.degraded (u "El sistema debe tardar como maximo dos segundos") true
                = Returned r /\ suggestions r = [measurability]).
Proof. split; eexists; (split; [vm_compute; reflexivity | now vm_compute]). Qed.

(** A pipeline that raises makes the call raise. *)
Example faulty_pipeline :
  report Demo.faulty Demo.sales true = Raised (u "tagger failure").
Proof. now vm_compute. Qed.

(** C2: the requirements "quizás", "quizas", "QUIZÁS" and "QUIZAS" all get
    the same errors, and no error "Ambigüedad" is among them: the table
    entry 'quizás' keeps its accent and the text is matched without. *)
Theorem quizas_not_flagged :
  let no_ambiguity requirement :=
    exists r,
      report Demo.degraded requirement true = Returned r
      /\ map Error.type (errors r) =
         [u "Longitud Insuficiente"; u "Ausencia de Palabras Clave"] in
  no_ambiguity (u "quizás") /\ no_ambiguity (u "quizas")
  /\ no_ambiguity (u "QUIZÁS") /\ no_ambiguity (u "QUIZAS").
Proof.
  repeat split; eexists; (split; [vm_compute; reflexivity | now vm_compute]).
Qed.

(** C3, as stated, fails on an input with whitespace at its ends. *)
Lemma original_text_not_verbatim :
  exists r,
    report Demo.degraded (u "  El sistema ") false = Returned r
    /\ original_text r = u "El sistema"
    /\ original_text r <> u "  El sistema ".
Proof.
  eexists. split; [vm_compute; reflexivity|].
  split; [now vm_compute|]. vm_compute. discriminate.
Qed.

(** ** The theorems at concrete inputs *)

Lemma is_valid_iff_no_errors_witness :
  exists r,
    report Demo.tagging Demo.sales true = Returned r
    /\ (is_valid r = true <-> errors r = []).
Proof.
  eexists. split.
  - vm_compute. reflexivity.
  - apply (@is_valid_iff_no_errors latin Demo.tagging Demo.sales true).
    vm_compute. reflexivity.
Defined.

Lemma original_text_is_stripped_witness :
  exists r,
    report Demo.degraded (u "  El sistema ") false = Returned r
    /\ original_text r = strip (u "  El sistema ").
Proof.
  eexists. split.
  - vm_compute. reflexivity.
  - apply (@original_text_is_stripped latin Demo.degraded (u "  El sistema ") false).
    vm_compute. reflexivity.
Defined.


Lemma measurability_iff_witness :
  exists r,
    report Demo.degraded Demo.sales true = Returned r
    /\ (has_suggestion (u "Medibilidad") (suggestions r)
        <-> true = true
            /\ forall metric,
                In metric (map u ["máximo"; "mínimo"; "al menos"; "no más de"; "%"]%string) ->
                str_in metric (lower (strip Demo.sales)) = false).
Proof.
  eexists. split.
  - vm_compute. reflexivity.
  - apply (@measurability_iff latin Demo.degraded Demo.sales true).
    vm_compute. reflexivity.
Defined.

Lemma length_error_iff_under_five_words_witness :
  exists r,
    report Demo.degraded (u "El sistema debe calcular") true = Returned r
    /\ (length (split (u "El sistema debe calcular")) = 4 ->
        has_error (u "Longitud Insuficiente") (errors r)).
Proof.
  eexists. split.
  - vm_compute. reflexivity.
  - apply (@length_error_iff_under_five_words latin Demo.degraded
             (u "El sistema debe calcular") true).
    vm_compute. reflexivity.
Defined.

Lemma missing_keywords_iff_witness :
  exists r,
    report Demo.degraded (u "La seguridad y el rendimiento importan") true
    = Returned r
    /\ (forall e,
          In e (errors r) ->
          Error.type e = u "Ausencia de Palabras Clave" ->
          Error.suggestion e =
          u "Incluya palabras como: "
          ++ join (u ", ") (firstn 3 (functional_keywords Demo.degraded))).
Proof.
  eexists. split.
  - vm_compute. reflexivity.
  - apply (@missing_keywords_iff latin Demo.degraded
             (u "La seguridad y el rendimiento importan") true).
    vm_compute. reflexivity.
Defined.

Lemma accented_weak_words_never_listed_witness :
  exists r,
    report (init (Raised (u "model not found"))) (u "quizás algún día") true
    = Returned r
    /\ (forall word,
          In word accented_weak_words ->
          str_in word (normalize_text (strip (u "quizás algún día"))) = false).
Proof.
  eexists. split.
  - vm_compute. reflexivity.
  - refine (proj1 (@accented_weak_words_never_listed latin
                     (Raised (u "model not found")) (u "quizás algún día")
                     true _ _)).
    vm_compute. reflexivity.
Defined.


(** * Further properties of the validator *)

(** ** Substrings, trimming and words *)

Lemma startswith_spec (prefix s : str) :
  startswith prefix s = true <-> exists rest, s = prefix ++ rest.
Proof.
  revert s. induction prefix as [|p prefix IH]; intros s; simpl.
  - split; [intros _; now exists s | reflexivity].
  - destruct s as [|c s].
    + split; [discriminate | intros [rest Hs]; discriminate].
    + rewrite andb_true_iff, N.eqb_eq, IH. split.
      * intros [-> [rest ->]]. now exists rest.
      * intros [rest [= -> ->]]. split; [reflexivity | now exists rest].
Qed.

(** [str_in] is the occurrence of a substring. *)
Lemma str_in_spec (sub s : str) :
  str_in sub s = true <-> exists before after, s = before ++ sub ++ after.
Proof.
  split.
  - induction s as [|c s IH]; simpl; rewrite orb_true_iff.
    + intros [H|H]; [|discriminate].
      apply startswith_spec in H as [rest Hs]. now exists [], rest.
    + intros [H|H].
      * apply startswith_spec in H as [rest Hs]. now exists [], rest.
      * destruct (IH H) as [before [after ->]]. now exists (c :: before), after.
  - intros [before [after ->]].
    induction before as [|c before IH]; simpl.
    + assert (H : startswith sub (sub ++ after) = true)
        by (apply startswith_spec; now exists after).
      destruct (sub ++ after); simpl in *; now rewrite H.
    + rewrite IH. apply orb_true_r.
Qed.

Section Trimming.
Context {U : UnicodeData}.

Lemma dropwhile_all {A} (p : A -> bool) (l rest : list A) :
  forallb p l = true -> dropwhile p (l ++ rest) = dropwhile p rest.
Proof.
  induction l as [|x l IH]; simpl; [reflexivity|].
  intros H. apply andb_true_iff in H as [-> H]. exact (IH H).
Qed.

Lemma rstrip_app_spaces (s trail : str) :
  forallb isspace trail = true -> rstrip (s ++ trail) = rstrip s.
Proof.
  intros H. unfold rstrip. rewrite rev_app_distr.
  rewrite dropwhile_all; [reflexivity | now rewrite forallb_rev].
Qed.

Lemma strip_app_spaces (s trail : str) :
  forallb isspace trail = true -> strip (s ++ trail) = strip s.
Proof.
  intros H. unfold strip, lstrip. induction s as [|c s IH]; simpl.
  - rewrite <- (app_nil_r trail), dropwhile_all by exact H. reflexivity.
  - destruct (isspace c); [exact IH|].
    exact (rstrip_app_spaces (c :: s) trail H).
Qed.

(** Whitespace around a string does not show in its [strip]. *)
Lemma strip_surrounded (lead s trail : str) :
  forallb isspace lead = true ->
  forallb isspace trail = true ->
  strip (lead ++ s ++ trail) = strip s.
Proof.
  intros Hl Ht. rewrite <- (strip_app_spaces s trail Ht).
  unfold strip, lstrip. now rewrite dropwhile_all.
Qed.

Lemma strip_blank (s : str) : forallb isspace s = true -> strip s = [].
Proof.
  intros H. unfold strip, lstrip.
  rewrite <- (app_nil_r s), dropwhile_all by exact H. reflexivity.
Qed.

(** Words are separated by whitespace: there is at most one more word than
    there are whitespace characters. *)
Lemma split_from_bound (s word : str) :
  length (split_from s word) <= length (filter isspace s) + 1.
Proof.
  revert word. induction s as [|c s IH]; intros word; simpl.
  - destruct word; simpl; lia.
  - destruct (isspace c); simpl.
    + destruct word; simpl; specialize (IH []); lia.
    + apply IH.
Qed.

End Trimming.

(** ** Reports *)

Ltac distinct_types :=
  simpl;
  repeat (constructor;
          [ simpl; intros Hin;
            repeat (destruct Hin as [Hin|Hin];
                    [vm_compute in Hin; discriminate Hin|]);
            exact Hin
          | ]);
  constructor.

Section Reporting.
Context {U : UnicodeData}.



Lemma report_consistent self requirement is_functional r :
  report self requirement is_functional = Returned r -> consistent r.
Proof.
  intros H. apply report_returned in H as [doc [_ ->]].
  apply metrics_check_consistent, grammar_checks_consistent,
    text_checks_consistent.
Qed.

(** X1: the errors of a report come in the order of the checks, each type
    at most once: their types are "Longitud Insuficiente", "Ambigüedad",
    "Ausencia de Palabras Clave", "Falta de Especificidad" with some left
    out, the last one always left out when no pipeline is loaded.  So there
    are at most four errors, and there is at most one suggestion. *)
Theorem errors_in_check_order self requirement is_functional r :
  report self requirement is_functional = Returned r ->
  (exists len amb kw spec : bool,
      map Error.type (errors r) =
      (if len then [u "Longitud Insuficiente"] else [])
      ++ (if amb then [u "Ambigüedad"] else [])
      ++ (if kw then [u "Ausencia de Palabras Clave"] else [])
      ++ (if spec then [u "Falta de Especificidad"] else [])
      /\ (nlp self = None -> spec = false))
  /\ NoDup (map Error.type (errors r))
  /\ length (errors r) <= 4
  /\ (suggestions r = [] \/ suggestions r = [measurability]).
Proof.
  intros H.
  assert (Hshape : exists len amb kw spec : bool,
             map Error.type (errors r) =
             (if len then [u "Longitud Insuficiente"] else [])
             ++ (if amb then [u "Ambigüedad"] else [])
             ++ (if kw then [u "Ausencia de Palabras Clave"] else [])
             ++ (if spec then [u "Falta de Especificidad"] else [])
             /\ (nlp self = None -> spec = false)).
  { destruct (report_errors _ _ _ H) as [doc [Hdoc ->]].
    exists (length (split (strip requirement)) <? 5).
    exists (match filter
                    (fun word => str_in word (normalize_text (strip requirement)))
                    (weak_words self) with
            | [] => false
            | _ => true
            end).
    exists (negb (existsb
                    (fun keyword =>
                       str_in keyword (normalize_text (strip requirement)))
                    (selected_keywords self is_functional))).
    exists (match doc with
            | Some doc => (length (verbs doc) =? 0) || (length (nouns doc) <? 2)
            | None => false
            end).
    split.
    - rewrite !map_app.
      destruct (_ <? 5); destruct (filter _ (weak_words self));
        destruct (existsb _ _); destruct doc as [doc|];
        try destruct (_ || _); reflexivity.
    - intros Hnone. unfold tagged in Hdoc. rewrite Hnone in Hdoc.
      now injection Hdoc as <-. }
  split; [exact Hshape|].
  destruct Hshape as [len [amb [kw [spec [Hmap _]]]]].
  split; [|split].
  - rewrite Hmap. destruct len, amb, kw, spec; distinct_types.
  - rewrite <- (length_map Error.type), Hmap.
    destruct len, amb, kw, spec; simpl; lia.
  - rewrite (report_suggestions _ _ _ H). destruct (_ && _); auto.
Qed.

(** X2: a report has the error "Ambigüedad" exactly when some entry of
    [weak_words] occurs in the normalized text, anywhere, be it inside a
    longer word; the description of the error lists all the entries that
    occur, in table order, joined by commas. *)
Theorem ambiguity_error_iff self requirement is_functional r :
  report self requirement is_functional = Returned r ->
  (has_error (u "Ambigüedad") (errors r)
   <-> exists word before after,
        In word (weak_words self)
        /\ normalize_text (strip requirement) = before ++ word ++ after)
  /\ (forall e,
        In e (errors r) ->
        Error.type e = u "Ambigüedad" ->
        Error.description e =
        u "Se encontraron palabras ambiguas: "
        ++ join (u ", ")
             (filter
                (fun word => str_in word (normalize_text (strip requirement)))
                (weak_words self))).
Proof.
  intros H. split.
  - destruct (@has_error_report _ _ _ _ _ (u "Ambigüedad") H)
      as [doc [_ Hiff]].
    rewrite Hiff. split.
    + intros [[Ht _]|[[_ Hfound]|[[Ht _]|[Ht _]]]]; try types_differ.
      destruct (filter _ (weak_words self)) as [|word found] eqn:E;
        [now destruct Hfound|].
      assert (Hw : In word (word :: found)) by now left.
      rewrite <- E in Hw. apply filter_In in Hw as [Hin Hmatch].
      apply str_in_spec in Hmatch as [before [after Hn]].
      now exists word, before, after.
    + intros [word [before [after [Hin Hn]]]]. right; left.
      split; [reflexivity|].
      assert (Hw : In word
                     (filter
                        (fun word =>
                           str_in word (normalize_text (strip requirement)))
                        (weak_words self))).
      { apply filter_In. split; [exact Hin|].
        apply str_in_spec. now exists before, after. }
      intros E. rewrite E in Hw. destruct Hw.
  - intros e He Ht.
    destruct (error_in_report _ _ _ _ H He) as [->|[[found [-> [_ ->]]]|[->| ->]]];
      simpl in Ht; try types_differ.
    reflexivity.
Qed.

(** X3: a requirement that is empty or all whitespace is never valid: its
    [original_text] is the empty string and its first error is
    "Longitud Insuficiente". *)
Theorem blank_requirement_invalid self requirement is_functional r :
  forallb isspace requirement = true ->
  report self requirement is_functional = Returned r ->
  original_text r = []
  /\ is_valid r = false
  /\ hd_error (errors r) = Some insufficient_length.
Proof.
  intros Hblank H.
  assert (Hhd : hd_error (errors r) = Some insufficient_length).
  { destruct (report_errors _ _ _ H) as [doc [_ ->]].
    now rewrite (strip_blank _ Hblank). }
  split; [|split; [|exact Hhd]].
  - apply report_returned in H as [doc [_ ->]].
    rewrite metrics_check_original_text.
    destruct (error_checks_keep self (strip requirement) is_functional doc)
      as [_ ->].
    now apply strip_blank.
  - destruct (is_valid r) eqn:Hv; [|reflexivity].
    apply (report_consistent _ _ _ H) in Hv. rewrite Hv in Hhd. discriminate.
Qed.


End Reporting.

Section Robustness.
Context {U : UnicodeData}.

(** X5: with the tables of [__init__], the keywords 'debería' and 'número de
    usuarios' occur in no normalized text, for they keep their accents; the
    error "Ausencia de Palabras Clave" is there exactly when none of the
    other keywords of the chosen table occurs. *)
Theorem accented_keywords_never_match spacy_load requirement is_functional r :
  report (init spacy_load) requirement is_functional = Returned r ->
  str_in (u "debería") (normalize_text (strip requirement)) = false
  /\ str_in (u "número de usuarios") (normalize_text (strip requirement)) = false
  /\ (has_error (u "Ausencia de Palabras Clave") (errors r)
      <-> forall keyword,
           In keyword
             (if is_functional
              then map u ["debe"; "tiene que"; "permitir"; "gestionar";
                          "calcular"; "mostrar"; "registrar"; "generar"]%string
              else map u ["rendimiento"; "seguridad"; "escalabilidad";
                          "disponibilidad"; "usabilidad";
                          "tiempo de respuesta"]%string) ->
           str_in keyword (normalize_text (strip requirement)) = false).
Proof.
  intros H.
  assert (Hd : str_in (u "debería") (normalize_text (strip requirement)) = false)
    by (apply accented_never_matches; vm_compute; reflexivity).
  assert (Hn : str_in (u "número de usuarios")
                 (normalize_text (strip requirement)) = false)
    by (apply accented_never_matches; vm_compute; reflexivity).
  split; [exact Hd|]. split; [exact Hn|].
  destruct (@has_error_report _ _ _ _ _ (u "Ausencia de Palabras Clave") H)
    as [doc [_ Hiff]].
  rewrite Hiff. clear Hiff. split.
  - intros [[Ht _]|[[Ht _]|[[_ Hno]|[Ht _]]]]; try types_differ.
    intros keyword Hk. apply Hno.
    destruct is_functional; simpl in Hk |- *; intuition auto.
  - intros Hno. right; right; left. split; [reflexivity|].
    intros keyword Hk.
    destruct is_functional; simpl in Hk;
      repeat (destruct Hk as [<-|Hk];
              [first [exact Hd | exact Hn | apply Hno; simpl; tauto]|]);
      destruct Hk.
Qed.

(** X6: whitespace before and after a requirement changes nothing: the call
    has the same outcome as on the requirement itself. *)
Theorem surrounding_whitespace_ignored self lead requirement trail is_functional :
  forallb isspace lead = true ->
  forallb isspace trail = true ->
  report self (lead ++ requirement ++ trail) is_functional
  = report self requirement is_functional.
Proof.
  intros Hl Ht. unfold report. rewrite !validate_requirement_run.
  now rewrite (strip_surrounded lead requirement trail Hl Ht).
Qed.

(** X7: the flag has a part in the keyword check and in the suggestion
    only: the reports of a requirement as functional and as non-functional
    have the same [original_text] and the same errors apart from
    "Ausencia de Palabras Clave", and the second has no suggestion. *)
Theorem flag_only_selects_keywords self requirement r r' :
  report self requirement true = Returned r ->
  report self requirement false = Returned r' ->
  original_text r = original_text r'
  /\ filter (fun e => negb (str_eqb (Error.type e) (u "Ausencia de Palabras Clave")))
       (errors r)
     = filter (fun e => negb (str_eqb (Error.type e) (u "Ausencia de Palabras Clave")))
         (errors r')
  /\ suggestions r' = [].
Proof.
  intros H H'. split; [|split].
  - apply report_returned in H as [doc [_ ->]].
    apply report_returned in H' as [doc' [_ ->]].
    rewrite !metrics_check_original_text.
    destruct (error_checks_keep self (strip requirement) true doc) as [_ ->].
    now destruct (error_checks_keep self (strip requirement) false doc')
      as [_ ->].
  - destruct (report_errors _ _ _ H) as [doc [Hdoc ->]].
    destruct (report_errors _ _ _ H') as [doc' [Hdoc' ->]].
    rewrite Hdoc in Hdoc'. injection Hdoc' as <-.
    assert (Hk : str_eqb (u "Ausencia de Palabras Clave")
                   (u "Ausencia de Palabras Clave") = true)
      by (vm_compute; reflexivity).
    rewrite !filter_app. f_equal. f_equal. f_equal.
    destruct (existsb _ (selected_keywords self true));
      destruct (existsb _ (selected_keywords self false));
      simpl; rewrite ?Hk; reflexivity.
  - rewrite (report_suggestions _ _ _ H'). now rewrite andb_false_r.
Qed.

(** X8: a requirement with fewer than four whitespace characters has fewer
    than five words, so its report has the error "Longitud Insuficiente". *)
Theorem few_separators_too_short self requirement is_functional r :
  report self requirement is_functional = Returned r ->
  length (filter isspace requirement) < 4 ->
  has_error (u "Longitud Insuficiente") (errors r).
Proof.
  intros H Hfew.
  destruct (@has_error_report _ _ _ _ _ (u "Longitud Insuficiente") H)
    as [doc [_ Hiff]].
  apply Hiff. left. split; [reflexivity|].
  rewrite split_strip. unfold split.
  pose proof (split_from_bound requirement []). lia.
Qed.

End Robustness.

Section NormalForm.
Context {U : UnicodeData}.

(** X11: [normalize_text] removes the accents: its result holds no
    nonspacing mark and no accented Latin-1 letter, so a word written with
    one of these is a substring of no normalized text. *)
Theorem normal_form_has_no_accents text :
  (forall c,
      In c (normalize_text text) ->
      category_is_Mn c = false /\ latin1_decomposable c = false)
  /\ (forall word,
        existsb (fun c => category_is_Mn c || latin1_decomposable c) word = true ->
        str_in word (normalize_text text) = false).
Proof.
  assert (Hclean : forall c,
             In c (normalize_text text) ->
             category_is_Mn c = false /\ latin1_decomposable c = false).
  { intros c Hc. split; [|exact (normalize_text_decomposed text c Hc)].
    unfold normalize_text in Hc. apply filter_In in Hc as [_ Hc].
    now apply negb_true_iff in Hc. }
  split; [exact Hclean|].
  intros word Hw. destruct (str_in word (normalize_text text)) eqn:E;
    [|reflexivity].
  apply existsb_exists in Hw as [c [Hc Hbad]].
  destruct (Hclean c (str_in_incl _ _ E c Hc)) as [Hmn Hdec].
  rewrite Hmn, Hdec in Hbad. discriminate.
Qed.

End NormalForm.

(** ** The further properties at concrete inputs *)

Lemma errors_in_check_order_witness :
  exists r,
    report Demo.tagging Demo.vague true = Returned r
    /\ NoDup (map Error.type (errors r))
    /\ length (errors r) <= 4.
Proof.
  eexists. split.
  - vm_compute. reflexivity.
  - pose proof (@errors_in_check_order latin Demo.tagging Demo.vague true _
                  ltac:(vm_compute; reflexivity)) as [_ [Hnodup [Hlen _]]].
    split; [exact Hnodup | exact Hlen].
Defined.

Lemma ambiguity_error_iff_witness :
  exists r,
    report Demo.degraded (u "Un algoritmo debe ordenar los datos") true
    = Returned r
    /\ (has_error (u "Ambigüedad") (errors r)
        <-> exists word before after,
             In word (weak_words Demo.degraded)
             /\ normalize_text (strip (u "Un algoritmo debe ordenar los datos"))
                = before ++ word ++ after).
Proof.
  eexists. split.
  - vm_compute. reflexivity.
  - refine (proj1 (@ambiguity_error_iff latin Demo.degraded
                     (u "Un algoritmo debe ordenar los datos") true _ _)).
    vm_compute. reflexivity.
Defined.

Lemma blank_requirement_invalid_witness :
  forallb isspace (u "   ") = true
  /\ exists r,
      report Demo.degraded (u "   ") false = Returned r
      /\ original_text r = []
      /\ is_valid r = false
      /\ hd_error (errors r) = Some insufficient_length.
Proof.
  split; [vm_compute; reflexivity|].
  eexists. split.
  - vm_compute. reflexivity.
  - apply (@blank_requirement_invalid latin Demo.degraded (u "   ") false).
    + vm_compute. reflexivity.
    + vm_compute. reflexivity.
Defined.


Lemma accented_keywords_never_match_witness :
  exists r,
    report (init (Raised (u "model not found")))
      (u "El número de usuarios crece cada mes") false = Returned r
    /\ str_in (u "número de usuarios")
         (normalize_text (strip (u "El número de usuarios crece cada mes")))
       = false.
Proof.
  eexists. split.
  - vm_compute. reflexivity.
  - refine (proj1 (proj2 (@accented_keywords_never_match latin
                            (Raised (u "model not found"))
                            (u "El número de usuarios crece cada mes")
                            false _ _))).
    vm_compute. reflexivity.
Defined.

Lemma surrounding_whitespace_ignored_witness :
  forallb isspace (u "  ") = true
  /\ forallb isspace (u " ") = true
  /\ report Demo.tagging (u "  " ++ Demo.sales ++ u " ") true
     = report Demo.tagging Demo.sales true.
Proof.
  split; [vm_compute; reflexivity|]. split; [vm_compute; reflexivity|].
  apply (@surrounding_whitespace_ignored latin Demo.tagging (u "  ") Demo.sales
           (u " ") true).
  - vm_compute. reflexivity.
  - vm_compute. reflexivity.
Defined.

Lemma flag_only_selects_keywords_witness :
  exists r r',
    report Demo.tagging Demo.sales true = Returned r
    /\ report Demo.tagging Demo.sales false = Returned r'
    /\ original_text r = original_text r'
    /\ suggestions r' = [].
Proof.
  eexists. eexists. split; [vm_compute; reflexivity|].
  split; [vm_compute; reflexivity|].
  pose proof (@flag_only_selects_keywords latin Demo.tagging Demo.sales _ _
                ltac:(vm_compute; reflexivity) ltac:(vm_compute; reflexivity))
    as [Htext [_ Hsug]].
  split; [exact Htext | exact Hsug].
Defined.

Lemma few_separators_too_short_witness :
  exists r,
    report Demo.degraded (u "El sistema debe calcular") true = Returned r
    /\ length (filter isspace (u "El sistema debe calcular")) < 4
    /\ has_error (u "Longitud Insuficiente") (errors r).
Proof.
  eexists. split; [vm_compute; reflexivity|].
  assert (Hfew : length (filter isspace (u "El sistema debe calcular")) < 4)
    by (vm_compute; lia).
  split; [exact Hfew|].
  apply (@few_separators_too_short latin Demo.degraded
           (u "El sistema debe calcular") true).
  - vm_compute. reflexivity.
  - exact Hfew.
Defined.

(** * The call on the Python heap

    The same method once more, on the objects it works with: the validator
    and its tables, the dictionary [validation_result] and its two lists
    are objects of a heap, reached through references and changed in
    place; values are typed at run time, so a lookup or an operation on a
    value of the wrong type raises; the pipeline has a state of its own.
    Lists that a statement builds and nothing refers to afterwards are kept
    as plain lists. *)
Unset Implicit Arguments.

Module Py.

Definition loc := nat.

Inductive exn : Type :=
| AttributeError
| TypeError
| KeyError
| PipelineError (message : str).

(** How a statement ends. *)
Inductive completion (A : Type) : Type :=
| Normal (a : A)
| Throw (e : exn).
Arguments Normal {A} a.
Arguments Throw {A} e.

Section Model.
Context {U : UnicodeData}.
Context {TS : Type}.

(** The loaded pipeline: a callable with a state [TS] of its own. *)
Definition Pipeline : Type := TS -> str -> outcome (list Token) * TS.

Inductive value : Type :=
| VNone
| VBool (b : bool)
| VStr (s : str)
| VRef (l : loc)
| VCallable (p : Pipeline).

Inductive object : Type :=
| OList (items : list value)
| ODict (entries : list (str * value))
| OInstance (attrs : list (str * value)).

Record world : Type := {
  heap : list object;
  pipeline_state : TS
}.

Definition M (A : Type) : Type := world -> completion A * world.

Definition ret {A} (a : A) : M A := fun w => (Normal a, w).

Definition throw {A} (e : exn) : M A := fun w => (Throw e, w).

Definition bind {A B} (m : M A) (k : A -> M B) : M B :=
  fun w =>
    match m w with
    | (Normal a, w') => k a w'
    | (Throw e, w') => (Throw e, w')
    end.

Notation "x <- m ;; k" := (bind m (fun x => k))
  (at level 61, m at next level, right associativity).
Notation "m ;; k" := (bind m (fun _ => k))
  (at level 61, right associativity).

(** Dictionaries and attribute tables keep their keys in insertion order. *)
Fixpoint assoc (key : str) (entries : list (str * value)) : option value :=
  match entries with
  | [] => None
  | (k, v) :: rest => if str_eqb key k then Some v else assoc key rest
  end.

Fixpoint assoc_set (key : str) (v : value) (entries : list (str * value))
  : list (str * value) :=
  match entries with
  | [] => [(key, v)]
  | (k, v0) :: rest =>
      if str_eqb key k then (k, v) :: rest
      else (k, v0) :: assoc_set key v rest
  end.

Fixpoint update (h : list object) (l : loc) (o : object) : list object :=
  match h, l with
  | [], _ => []
  | _ :: h', O => o :: h'
  | x :: h', S l' => x :: update h' l' o
  end.

(** A new object; the value is the reference to it. *)
Definition alloc (o : object) : M value :=
  fun w =>
    (Normal (VRef (length (heap w))),
     {| heap := heap w ++ [o]; pipeline_state := pipeline_state w |}).

Definition store (l : loc) (o : object) : M unit :=
  fun w =>
    (Normal tt,
     {| heap := update (heap w) l o; pipeline_state := pipeline_state w |}).

(** The object a value refers to, with its place. *)
Definition target (v : value) : M (option (loc * object)) :=
  fun w =>
    (Normal match v with
            | VRef l =>
                match nth_error (heap w) l with
                | Some o => Some (l, o)
                | None => None
                end
            | _ => None
            end,
     w).

(** [obj.name] *)
Definition getattr (obj : value) (name : str) : M value :=
  t <- target obj ;;
  match t with
  | Some (_, OInstance attrs) =>
      match assoc name attrs with
      | Some v => ret v
      | None => throw AttributeError
      end
  | _ => throw AttributeError
  end.

(** [obj.name = v] *)
Definition setattr (obj : value) (name : str) (v : value) : M unit :=
  t <- target obj ;;
  match t with
  | Some (l, OInstance attrs) => store l (OInstance (assoc_set name v attrs))
  | _ => throw AttributeError
  end.

(** [d[key]] *)
Definition getitem (d : value) (key : str) : M value :=
  t <- target d ;;
  match t with
  | Some (_, ODict entries) =>
      match assoc key entries with
      | Some v => ret v
      | None => throw KeyError
      end
  | _ => throw TypeError
  end.

(** [d[key] = v] *)
Definition setitem (d : value) (key : str) (v : value) : M unit :=
  t <- target d ;;
  match t with
  | Some (l, ODict entries) => store l (ODict (assoc_set key v entries))
  | _ => throw TypeError
  end.

(** [l.append(v)] *)
Definition append (l : value) (v : value) : M unit :=
  t <- target l ;;
  match t with
  | Some (place, OList items) => store place (OList (items ++ [v]))
  | _ => throw AttributeError
  end.

(** The items a [for] goes through: those of a list, the characters of a
    string, the keys of a dictionary. *)
Definition iterate (v : value) : M (list value) :=
  match v with
  | VStr s => ret (map (fun c => VStr [c]) s)
  | _ =>
      t <- target v ;;
      match t with
      | Some (_, OList items) => ret items
      | Some (_, ODict entries) => ret (map (fun kv => VStr (fst kv)) entries)
      | _ => throw TypeError
      end
  end.

(** The items of [v[:n]]. *)
Definition slice_to (n : nat) (v : value) : M (list value) :=
  match v with
  | VStr s => ret (map (fun c => VStr [c]) (firstn n s))
  | _ =>
      t <- target v ;;
      match t with
      | Some (_, OList items) => ret (firstn n items)
      | _ => throw TypeError
      end
  end.

(** [word in text], for a string [text] *)
Definition contained (word : value) (text : str) : M bool :=
  match word with
  | VStr w => ret (str_in w text)
  | _ => throw TypeError
  end.

(** [sep.join(items)] *)
Fixpoint strings (items : list value) : option (list str) :=
  match items with
  | [] => Some []
  | VStr s :: rest =>
      match strings rest with
      | Some ss => Some (s :: ss)
      | None => None
      end
  | _ :: _ => None
  end.

Definition str_join (sep : str) (items : list value) : M str :=
  match strings items with
  | Some ss => ret (join sep ss)
  | None => throw TypeError
  end.

(** [f(text)], for the pipeline *)
Definition call (f : value) (text : str) : M (list Token) :=
  match f with
  | VCallable p =>
      fun w =>
        let (result, state) := p (pipeline_state w) text in
        (match result with
         | Returned doc => Normal doc
         | Raised message => Throw (PipelineError message)
         end,
         {| heap := heap w; pipeline_state := state |})
  | _ => throw TypeError
  end.

(** [[word for word in words if word in text]] *)
Fixpoint words_in (words : list value) (text : str) : M (list value) :=
  match words with
  | [] => ret []
  | word :: rest =>
      found <- contained word text ;;
      others <- words_in rest text ;;
      ret (if found then word :: others else others)
  end.

(** [any(word in text for word in words)] stops at the first match. *)
Fixpoint any_in (words : list value) (text : str) : M bool :=
  match words with
  | [] => ret false
  | word :: rest =>
      found <- contained word text ;;
      if found then ret true else any_in rest text
  end.

(** [__init__] *)
Definition initialize (spacy_load : outcome Pipeline) : M value :=
  self <- alloc (OInstance []) ;;
  setattr self (u "nlp")
    match spacy_load with
    | Returned nlp => VCallable nlp
    | Raised _ => VNone
    end ;;
  weak_words <-
    alloc (OList (map (fun s => VStr (u s))
                    ["algo"; "algún"; "algunos"; "tal vez"; "quizás"; "podría";
                     "aproximadamente"; "más o menos"; "creo que";
                     "parece"]%string)) ;;
  setattr self (u "weak_words") weak_words ;;
  functional_keywords <-
    alloc (OList (map (fun s => VStr (u s))
                    ["debe"; "debería"; "tiene que"; "permitir"; "gestionar";
                     "calcular"; "mostrar"; "registrar"; "generar"]%string)) ;;
  setattr self (u "functional_keywords") functional_keywords ;;
  non_functional_keywords <-
    alloc (OList (map (fun s => VStr (u s))
                    ["rendimiento"; "seguridad"; "escalabilidad";
                     "disponibilidad"; "usabilidad"; "tiempo de respuesta";
                     "número de usuarios"]%string)) ;;
  setattr self (u "non_functional_keywords") non_functional_keywords ;;
  ret self.

(** [self.normalize_text(text)]: the method is found on instances only. *)
Definition normalize_text_of (self : value) (text : str) : M str :=
  t <- target self ;;
  match t with
  | Some (_, OInstance _) => ret (normalize_text text)
  | _ => throw AttributeError
  end.

(** The dictionaries of the five findings. *)
Definition insufficient_length_dict : object :=
  ODict
    [(u "type", VStr (u "Longitud Insuficiente"));
     (u "description",
      VStr (u "El requerimiento es demasiado corto para ser significativo."));
     (u "suggestion",
      VStr (u "Expanda su requerimiento para incluir más detalles específicos."))].

Definition ambiguity_dict (listed : str) : object :=
  ODict
    [(u "type", VStr (u "Ambigüedad"));
     (u "description", VStr (u "Se encontraron palabras ambiguas: " ++ listed));
     (u "suggestion",
      VStr (u "Reemplace palabras vagas con términos precisos y concretos."))].

Definition missing_keywords_dict (examples : str) : object :=
  ODict
    [(u "type", VStr (u "Ausencia de Palabras Clave"));
     (u "description",
      VStr (u "No se encontraron palabras características del tipo de requerimiento."));
     (u "suggestion", VStr (u "Incluya palabras como: " ++ examples))].

Definition lack_of_specificity_dict : object :=
  ODict
    [(u "type", VStr (u "Falta de Especificidad"));
     (u "description",
      VStr (u "El requerimiento carece de verbos o sustantivos específicos."));
     (u "suggestion",
      VStr (u "Defina claramente la acción (verbo) y el objeto (sustantivo) del requerimiento."))].

Definition measurability_dict : object :=
  ODict
    [(u "type", VStr (u "Medibilidad"));
     (u "description", VStr (u "No se detectaron métricas específicas."));
     (u "recommendation",
      VStr (u "Considere agregar métricas o criterios de aceptación medibles."))].

(** Validación de longitud *)
Definition check_length (requirement : str) (validation_result : value)
  : M unit :=
  if length (split requirement) <? 5 then
    setitem validation_result (u "is_valid") (VBool false) ;;
    errors <- getitem validation_result (u "errors") ;;
    finding <- alloc insufficient_length_dict ;;
    append errors finding
  else ret tt.

(** Detección de palabras ambiguas *)
Definition check_ambiguity (self : value) (normalized_req : str)
  (validation_result : value) : M unit :=
  weak_words <- getattr self (u "weak_words") ;;
  words <- iterate weak_words ;;
  ambiguous_words_found <- words_in words normalized_req ;;
  match ambiguous_words_found with
  | [] => ret tt
  | _ :: _ =>
      setitem validation_result (u "is_valid") (VBool false) ;;
      errors <- getitem validation_result (u "errors") ;;
      listed <- str_join (u ", ") ambiguous_words_found ;;
      finding <- alloc (ambiguity_dict listed) ;;
      append errors finding
  end.

(** Verificación de palabras clave *)
Definition check_keywords (self : value) (is_functional : bool)
  (normalized_req : str) (validation_result : value) : M unit :=
  keywords <- (if is_functional then getattr self (u "functional_keywords")
               else getattr self (u "non_functional_keywords")) ;;
  words <- iterate keywords ;;
  has_keywords <- any_in words normalized_req ;;
  if negb has_keywords then
    setitem validation_result (u "is_valid") (VBool false) ;;
    errors <- getitem validation_result (u "errors") ;;
    first <- slice_to 3 keywords ;;
    examples <- str_join (u ", ") first ;;
    finding <- alloc (missing_keywords_dict examples) ;;
    append errors finding
  else ret tt.

(** Verificación de especificidad *)
Definition check_specificity (self : value) (requirement : str)
  (validation_result : value) : M unit :=
  nlp <- getattr self (u "nlp") ;;
  match nlp with
  | VNone => ret tt
  | _ =>
      nlp <- getattr self (u "nlp") ;;
      doc <- call nlp requirement ;;
      if (length (verbs doc) =? 0) || (length (nouns doc) <? 2) then
        setitem validation_result (u "is_valid") (VBool false) ;;
        errors <- getitem validation_result (u "errors") ;;
        finding <- alloc lack_of_specificity_dict ;;
        append errors finding
      else ret tt
  end.

(** Detección de métricas *)
Definition check_metrics (requirement : str) (is_functional : bool)
  (validation_result : value) : M unit :=
  let has_metrics :=
    existsb (fun metric => str_in metric (lower requirement))
      metrics_indicators in
  if negb has_metrics && is_functional then
    suggestions <- getitem validation_result (u "suggestions") ;;
    finding <- alloc measurability_dict ;;
    append suggestions finding
  else ret tt.

(** [validate_requirement(self, requirement, is_functional)]; the value is
    the reference to [validation_result]. *)
Definition validate_requirement (self : value) (requirement : str)
  (is_functional : bool) : M value :=
  let requirement := strip requirement in
  normalized_req <- normalize_text_of self requirement ;;
  errors <- alloc (OList []) ;;
  suggestions <- alloc (OList []) ;;
  validation_result <-
    alloc (ODict
             [(u "original_text", VStr requirement);
              (u "is_valid", VBool true);
              (u "errors", errors);
              (u "suggestions", suggestions)]) ;;
  check_length requirement validation_result ;;
  check_ambiguity self normalized_req validation_result ;;
  check_keywords self is_functional normalized_req validation_result ;;
  check_specificity self requirement validation_result ;;
  check_metrics requirement is_functional validation_result ;;
  ret validation_result.

(** ** Reading the heap *)

Definition read_str (key : str) (entries : list (str * value)) : option str :=
  match assoc key entries with
  | Some (VStr s) => Some s
  | _ => None
  end.

Definition read_error (h : list object) (v : value) : option Error.t :=
  match v with
  | VRef l =>
      match nth_error h l with
      | Some (ODict entries) =>
          match read_str (u "type") entries,
                read_str (u "description") entries,
                read_str (u "suggestion") entries with
          | Some t, Some d, Some s =>
              Some {| Error.type := t;
                      Error.description := d;
                      Error.suggestion := s |}
          | _, _, _ => None
          end
      | _ => None
      end
  | _ => None
  end.

Definition read_suggestion (h : list object) (v : value)
  : option Suggestion.t :=
  match v with
  | VRef l =>
      match nth_error h l with
      | Some (ODict entries) =>
          match read_str (u "type") entries,
                read_str (u "description") entries,
                read_str (u "recommendation") entries with
          | Some t, Some d, Some r =>
              Some {| Suggestion.type := t;
                      Suggestion.description := d;
                      Suggestion.recommendation := r |}
          | _, _, _ => None
          end
      | _ => None
      end
  | _ => None
  end.

Fixpoint read_all {A} (read : value -> option A) (vs : list value)
  : option (list A) :=
  match vs with
  | [] => Some []
  | v :: rest =>
      match read v, read_all read rest with
      | Some a, Some others => Some (a :: others)
      | _, _ => None
      end
  end.

Definition read_list (h : list object) (v : value) : option (list value) :=
  match v with
  | VRef l =>
      match nth_error h l with
      | Some (OList items) => Some items
      | _ => None
      end
  | _ => None
  end.

(** The report a reference leads to: the dictionary, its two lists and the
    dictionaries in them, read off the heap. *)
Definition snapshot (h : list object) (v : value) : option ValidationResult :=
  match v with
  | VRef l =>
      match nth_error h l with
      | Some (ODict entries) =>
          match assoc (u "original_text") entries,
                assoc (u "is_valid") entries,
                assoc (u "errors") entries,
                assoc (u "suggestions") entries with
          | Some (VStr text), Some (VBool valid), Some errs, Some sugs =>
              match read_list h errs, read_list h sugs with
              | Some es, Some ss =>
                  match read_all (read_error h) es,
                        read_all (read_suggestion h) ss with
                  | Some errors, Some suggestions =>
                      Some {| original_text := text;
                              is_valid := valid;
                              errors := errors;
                              suggestions := suggestions |}
                  | _, _ => None
                  end
              | _, _ => None
              end
          | _, _, _, _ => None
          end
      | _ => None
      end
  | _ => None
  end.

(** The validator a reference leads to, as [Validator]: its three tables,
    which must be lists of strings, and its pipeline at the state it is in. *)
Definition read_table (h : list object) (name : str)
  (attrs : list (str * value)) : option (list str) :=
  match assoc name attrs with
  | Some table =>
      match read_list h table with
      | Some items => strings items
      | None => None
      end
  | None => None
  end.

Definition read_validator (w : world) (self : value) : option Validator :=
  match self with
  | VRef l =>
      match nth_error (heap w) l with
      | Some (OInstance attrs) =>
          match assoc (u "nlp") attrs,
                read_table (heap w) (u "weak_words") attrs,
                read_table (heap w) (u "functional_keywords") attrs,
                read_table (heap w) (u "non_functional_keywords") attrs with
          | Some VNone, Some weak, Some functional, Some non_functional =>
              Some {| nlp := None;
                      weak_words := weak;
                      functional_keywords := functional;
                      non_functional_keywords := non_functional |}
          | Some (VCallable p), Some weak, Some functional, Some non_functional =>
              Some {| nlp := Some (fun text => fst (p (pipeline_state w) text));
                      weak_words := weak;
                      functional_keywords := functional;
                      non_functional_keywords := non_functional |}
          | _, _, _, _ => None
          end
      | _ => None
      end
  | _ => None
  end.

(** The state of the pipeline after a call on [text]. *)
Definition pipeline_after (w : world) (self : value) (text : str) : TS :=
  match self with
  | VRef l =>
      match nth_error (heap w) l with
      | Some (OInstance attrs) =>
          match assoc (u "nlp") attrs with
          | Some (VCallable p) => snd (p (pipeline_state w) text)
          | _ => pipeline_state w
          end
      | _ => pipeline_state w
      end
  | _ => pipeline_state w
  end.

(** ** What the call leaves on the heap *)

(** The world with another heap. *)
Definition with_heap (h : list object) (w : world) : world :=
  {| heap := h; pipeline_state := pipeline_state w |}.

Definition error_dict (e : Error.t) : object :=
  ODict [(u "type", VStr (Error.type e));
         (u "description", VStr (Error.description e));
         (u "suggestion", VStr (Error.suggestion e))].

Definition suggestion_dict (s : Suggestion.t) : object :=
  ODict [(u "type", VStr (Suggestion.type s));
         (u "description", VStr (Suggestion.description s));
         (u "recommendation", VStr (Suggestion.recommendation s))].

Definition result_dict (n : loc) (r : ValidationResult) : object :=
  ODict [(u "original_text", VStr (original_text r));
         (u "is_valid", VBool (is_valid r));
         (u "errors", VRef n);
         (u "suggestions", VRef (S n))].

(** The objects of a call that began with [n] objects on the heap and has
    come to the report [r]: the two lists, the dictionary, then the
    findings in the order they were appended. *)
Definition layout (n : loc) (r : ValidationResult) : list object :=
  [OList (map VRef (seq (n + 3) (length (errors r))));
   OList (map VRef (seq (n + 3 + length (errors r)) (length (suggestions r))));
   result_dict n r]
  ++ map error_dict (errors r)
  ++ map suggestion_dict (suggestions r).

(** The validator at [self]: an instance whose tables are lists of the
    strings of [v] and whose pipeline, at state [st], is that of [v]. *)
Definition validator_at (h : list object) (st : TS) (self : value)
  (v : Validator) : Prop :=
  exists l attrs lw lf ln,
    self = VRef l
    /\ nth_error h l = Some (OInstance attrs)
    /\ assoc (u "weak_words") attrs = Some (VRef lw)
    /\ nth_error h lw = Some (OList (map VStr (weak_words v)))
    /\ assoc (u "functional_keywords") attrs = Some (VRef lf)
    /\ nth_error h lf = Some (OList (map VStr (functional_keywords v)))
    /\ assoc (u "non_functional_keywords") attrs = Some (VRef ln)
    /\ nth_error h ln = Some (OList (map VStr (non_functional_keywords v)))
    /\ ((assoc (u "nlp") attrs = Some VNone /\ nlp v = None)
        \/ exists p,
            assoc (u "nlp") attrs = Some (VCallable p)
            /\ nlp v = Some (fun text => fst (p st text))).

(** *** Lists and the heap *)

Lemma nth_error_app_plus {A} (h l : list A) i :
  nth_error (h ++ l) (length h + i) = nth_error l i.
Proof.
  rewrite nth_error_app2 by lia. f_equal. lia.
Qed.

Lemma update_app_plus (h l : list object) i o :
  update (h ++ l) (length h + i) o = h ++ update l i o.
Proof.
  induction h as [|x h IH]; simpl; [reflexivity|]. now rewrite IH.
Qed.

Lemma nth_error_first {A} (h : list A) a l :
  nth_error (h ++ a :: l) (length h) = Some a.
Proof.
  rewrite <- (Nat.add_0_r (length h)). now rewrite nth_error_app_plus.
Qed.

Lemma nth_error_second {A} (h : list A) a b l :
  nth_error (h ++ a :: b :: l) (S (length h)) = Some b.
Proof.
  replace (S (length h)) with (length h + 1) by lia.
  now rewrite nth_error_app_plus.
Qed.

Lemma update_first (h : list object) a l o :
  update (h ++ a :: l) (length h) o = h ++ o :: l.
Proof.
  rewrite <- (Nat.add_0_r (length h)). now rewrite update_app_plus.
Qed.

Lemma update_second (h : list object) a b l o :
  update (h ++ a :: b :: l) (S (length h)) o = h ++ a :: o :: l.
Proof.
  replace (S (length h)) with (length h + 1) by lia.
  now rewrite update_app_plus.
Qed.

Lemma update_app_left (h l : list object) i o :
  i < length h -> update (h ++ l) i o = update h i o ++ l.
Proof.
  revert i. induction h as [|x h IH]; intros i Hi; simpl in *; [lia|].
  destruct i; simpl; [reflexivity|]. rewrite IH by lia. reflexivity.
Qed.

Lemma strings_map (ss : list str) : strings (map VStr ss) = Some ss.
Proof.
  induction ss as [|s ss IH]; simpl; [reflexivity|]. now rewrite IH.
Qed.

Lemma strings_inv (items : list value) (ss : list str) :
  strings items = Some ss -> items = map VStr ss.
Proof.
  revert ss. induction items as [|v items IH]; intros ss; simpl.
  - now intros [= <-].
  - destruct v; try discriminate.
    destruct (strings items) as [ss'|]; [|discriminate].
    intros [= <-]. simpl. now rewrite (IH ss' eq_refl).
Qed.

(** *** Running statements *)

Lemma bind_normal {A B} (m : M A) (k : A -> M B) w a w' :
  m w = (Normal a, w') -> bind m k w = k a w'.
Proof. unfold bind. now intros ->. Qed.

Lemma bind_throw {A B} (m : M A) (k : A -> M B) w e w' :
  m w = (Throw e, w') -> bind m k w = (Throw e, w').
Proof. unfold bind. now intros ->. Qed.

Lemma getattr_at w l attrs name v :
  nth_error (heap w) l = Some (OInstance attrs) ->
  assoc name attrs = Some v ->
  getattr (VRef l) name w = (Normal v, w).
Proof.
  intros Hl Ha. unfold getattr, bind, target. rewrite Hl, Ha. reflexivity.
Qed.

Lemma getitem_at w l entries key v :
  nth_error (heap w) l = Some (ODict entries) ->
  assoc key entries = Some v ->
  getitem (VRef l) key w = (Normal v, w).
Proof.
  intros Hl Ha. unfold getitem, bind, target. rewrite Hl, Ha. reflexivity.
Qed.

Lemma setitem_at w l entries key v :
  nth_error (heap w) l = Some (ODict entries) ->
  setitem (VRef l) key v w
  = (Normal tt, with_heap (update (heap w) l (ODict (assoc_set key v entries))) w).
Proof.
  intros Hl. unfold setitem, bind, target. rewrite Hl. reflexivity.
Qed.

Lemma append_at w l items v :
  nth_error (heap w) l = Some (OList items) ->
  append (VRef l) v w
  = (Normal tt, with_heap (update (heap w) l (OList (items ++ [v]))) w).
Proof.
  intros Hl. unfold append, bind, target. rewrite Hl. reflexivity.
Qed.

Lemma iterate_at w l items :
  nth_error (heap w) l = Some (OList items) ->
  iterate (VRef l) w = (Normal items, w).
Proof.
  intros Hl. unfold iterate, bind, target. rewrite Hl. reflexivity.
Qed.

Lemma slice_to_at w l items n :
  nth_error (heap w) l = Some (OList items) ->
  slice_to n (VRef l) w = (Normal (firstn n items), w).
Proof.
  intros Hl. unfold slice_to, bind, target. rewrite Hl. reflexivity.
Qed.

Lemma words_in_strings (ws : list str) text w :
  words_in (map VStr ws) text w
  = (Normal (map VStr (filter (fun word => str_in word text) ws)), w).
Proof.
  induction ws as [|word ws IH]; simpl; [reflexivity|].
  unfold bind at 1. unfold contained, ret at 1.
  unfold bind at 1. rewrite IH. unfold ret.
  now destruct (str_in word text).
Qed.

Lemma any_in_strings (ws : list str) text w :
  any_in (map VStr ws) text w
  = (Normal (existsb (fun word => str_in word text) ws), w).
Proof.
  induction ws as [|word ws IH]; simpl; [reflexivity|].
  unfold bind, contained, ret.
  destruct (str_in word text); [reflexivity | exact IH].
Qed.

Lemma str_join_strings sep (ss : list str) w :
  str_join sep (map VStr ss) w = (Normal (join sep ss), w).
Proof. unfold str_join. now rewrite strings_map. Qed.

(** *** The dictionaries of a call *)

Lemma result_entries (a b c d : value) :
  let entries := [(u "original_text", a); (u "is_valid", b);
                  (u "errors", c); (u "suggestions", d)] in
  assoc (u "original_text") entries = Some a
  /\ assoc (u "is_valid") entries = Some b
  /\ assoc (u "errors") entries = Some c
  /\ assoc (u "suggestions") entries = Some d
  /\ forall v, assoc_set (u "is_valid") v entries
               = [(u "original_text", a); (u "is_valid", v);
                  (u "errors", c); (u "suggestions", d)].
Proof. repeat split; vm_compute; reflexivity. Qed.

Lemma read_error_dict h l e :
  nth_error h l = Some (error_dict e) -> read_error h (VRef l) = Some e.
Proof.
  intros Hl. unfold read_error. rewrite Hl. unfold error_dict.
  destruct e as [t d s]. vm_compute. reflexivity.
Qed.

Lemma read_suggestion_dict h l s :
  nth_error h l = Some (suggestion_dict s) -> read_suggestion h (VRef l) = Some s.
Proof.
  intros Hl. unfold read_suggestion. rewrite Hl. unfold suggestion_dict.
  destruct s as [t d r]. vm_compute. reflexivity.
Qed.

Lemma read_errors_run (before : list object) es after :
  read_all (read_error (before ++ map error_dict es ++ after))
    (map VRef (seq (length before) (length es)))
  = Some es.
Proof.
  revert before. induction es as [|e es IH]; intros before;
    [reflexivity|].
  cbn [length seq map read_all app].
  assert (Hn : nth_error (before ++ error_dict e :: map error_dict es ++ after)
                 (length before) = Some (error_dict e)).
  { rewrite <- (Nat.add_0_r (length before)). now rewrite nth_error_app_plus. }
  rewrite (read_error_dict _ _ _ Hn).
  replace (before ++ error_dict e :: map error_dict es ++ after)
    with ((before ++ [error_dict e]) ++ map error_dict es ++ after)
    by (rewrite <- app_assoc; reflexivity).
  replace (S (length before)) with (length (before ++ [error_dict e]))
    by (rewrite length_app; simpl; lia).
  now rewrite IH.
Qed.

Lemma read_suggestions_run (before : list object) ss after :
  read_all (read_suggestion (before ++ map suggestion_dict ss ++ after))
    (map VRef (seq (length before) (length ss)))
  = Some ss.
Proof.
  revert before. induction ss as [|s ss IH]; intros before;
    [reflexivity|].
  cbn [length seq map read_all app].
  assert (Hn : nth_error (before ++ suggestion_dict s :: map suggestion_dict ss ++ after)
                 (length before) = Some (suggestion_dict s)).
  { rewrite <- (Nat.add_0_r (length before)). now rewrite nth_error_app_plus. }
  rewrite (read_suggestion_dict _ _ _ Hn).
  replace (before ++ suggestion_dict s :: map suggestion_dict ss ++ after)
    with ((before ++ [suggestion_dict s]) ++ map suggestion_dict ss ++ after)
    by (rewrite <- app_assoc; reflexivity).
  replace (S (length before)) with (length (before ++ [suggestion_dict s]))
    by (rewrite length_app; simpl; lia).
  now rewrite IH.
Qed.

(** The report read off the objects of a call is the report they were laid
    out for. *)
Lemma snapshot_layout (h0 : list object) (r : ValidationResult) :
  snapshot (h0 ++ layout (length h0) r) (VRef (length h0 + 2)) = Some r.
Proof.
  set (k := length (errors r)). set (j := length (suggestions r)).
  set (head := [OList (map VRef (seq (length h0 + 3) k));
                OList (map VRef (seq (length h0 + 3 + k) j));
                result_dict (length h0) r]).
  assert (Hsplit : h0 ++ layout (length h0) r
                   = (h0 ++ head) ++ map error_dict (errors r)
                                  ++ map suggestion_dict (suggestions r))
    by (rewrite <- app_assoc; reflexivity).
  assert (Hlen : length (h0 ++ head) = length h0 + 3)
    by (rewrite length_app; reflexivity).
  assert (F1 : nth_error (h0 ++ layout (length h0) r) (length h0 + 2)
               = Some (result_dict (length h0) r))
    by (rewrite nth_error_app_plus; reflexivity).
  assert (F2 : nth_error (h0 ++ layout (length h0) r) (length h0)
               = Some (OList (map VRef (seq (length h0 + 3) k)))).
  { rewrite <- (Nat.add_0_r (length h0)) at 2.
    rewrite nth_error_app_plus. reflexivity. }
  assert (F3 : nth_error (h0 ++ layout (length h0) r) (S (length h0))
               = Some (OList (map VRef (seq (length h0 + 3 + k) j)))).
  { replace (S (length h0)) with (length h0 + 1) by lia.
    rewrite nth_error_app_plus. reflexivity. }
  assert (F4 : read_all (read_error (h0 ++ layout (length h0) r))
                 (map VRef (seq (length h0 + 3) k))
               = Some (errors r)).
  { rewrite Hsplit, <- Hlen. apply read_errors_run. }
  assert (F5 : read_all (read_suggestion (h0 ++ layout (length h0) r))
                 (map VRef (seq (length h0 + 3 + k) j))
               = Some (suggestions r)).
  { rewrite Hsplit.
    replace (length h0 + 3 + k)
      with (length ((h0 ++ head) ++ map error_dict (errors r)))
      by (rewrite length_app, length_map, Hlen; reflexivity).
    rewrite app_assoc.
    rewrite <- (app_nil_r (map suggestion_dict (suggestions r))).
    apply read_suggestions_run. }
  unfold snapshot. rewrite F1. unfold result_dict.
  destruct (result_entries (VStr (original_text r)) (VBool (is_valid r))
              (VRef (length h0)) (VRef (S (length h0))))
    as [-> [-> [-> [-> _]]]].
  unfold read_list. rewrite F2, F3, F4, F5. now destruct r.
Qed.

(** *** The statements that change the report *)

Section Steps.
Variable h0 : list object.
Variable r : ValidationResult.
Variable w : world.
Hypothesis Hheap : heap w = h0 ++ layout (length h0) r.

Lemma result_at :
  nth_error (heap w) (length h0 + 2) = Some (result_dict (length h0) r).
Proof. rewrite Hheap, nth_error_app_plus. reflexivity. Qed.

Lemma clear_is_valid :
  setitem (VRef (length h0 + 2)) (u "is_valid") (VBool false) w
  = (Normal tt,
     with_heap (h0 ++ layout (length h0) (set_is_valid false r)) w).
Proof.
  rewrite (setitem_at _ _ _ _ _ result_at). rewrite Hheap, update_app_plus.
  destruct (result_entries (VStr (original_text r)) (VBool (is_valid r))
              (VRef (length h0)) (VRef (S (length h0))))
    as [_ [_ [_ [_ Hset]]]].
  rewrite Hset. reflexivity.
Qed.

Lemma errors_of_result :
  getitem (VRef (length h0 + 2)) (u "errors") w = (Normal (VRef (length h0)), w).
Proof.
  apply (getitem_at _ _ _ _ _ result_at). unfold result_dict.
  apply (result_entries (VStr (original_text r)) (VBool (is_valid r))
           (VRef (length h0)) (VRef (S (length h0)))).
Qed.

Lemma suggestions_of_result :
  getitem (VRef (length h0 + 2)) (u "suggestions") w
  = (Normal (VRef (S (length h0))), w).
Proof.
  apply (getitem_at _ _ _ _ _ result_at). unfold result_dict.
  apply (result_entries (VStr (original_text r)) (VBool (is_valid r))
           (VRef (length h0)) (VRef (S (length h0)))).
Qed.

Lemma append_error e :
  suggestions r = [] ->
  bind (alloc (error_dict e)) (fun finding => append (VRef (length h0)) finding) w
  = (Normal tt, with_heap (h0 ++ layout (length h0) (errors_append e r)) w).
Proof.
  intros Hs. unfold bind, alloc.
  set (k := length (errors r)).
  assert (Hshape : heap w
                   = h0 ++ OList (map VRef (seq (length h0 + 3) k))
                        :: OList []
                        :: result_dict (length h0) r
                        :: map error_dict (errors r)).
  { rewrite Hheap. unfold layout. rewrite Hs. simpl. now rewrite app_nil_r. }
  rewrite (append_at _ (length h0) (map VRef (seq (length h0 + 3) k))).
  2:{ simpl heap. rewrite Hshape, <- app_assoc. apply nth_error_first. }
  unfold with_heap. simpl. f_equal. f_equal.
  rewrite Hshape, <- app_assoc. simpl. rewrite update_first.
  f_equal. unfold layout. simpl.
  rewrite Hs, !length_app, map_app. simpl. rewrite length_map, app_nil_r.
  fold k. rewrite Nat.add_1_r, seq_S, map_app. simpl.
  replace (length h0 + S (S (S k))) with (length h0 + 3 + k) by lia.
  reflexivity.
Qed.

Lemma append_suggestion s :
  bind (alloc (suggestion_dict s))
    (fun finding => append (VRef (S (length h0))) finding) w
  = (Normal tt, with_heap (h0 ++ layout (length h0) (suggestions_append s r)) w).
Proof.
  unfold bind, alloc.
  set (k := length (errors r)). set (j := length (suggestions r)).
  assert (Hshape : heap w
                   = h0 ++ OList (map VRef (seq (length h0 + 3) k))
                        :: OList (map VRef (seq (length h0 + 3 + k) j))
                        :: result_dict (length h0) r
                        :: map error_dict (errors r)
                           ++ map suggestion_dict (suggestions r))
    by (rewrite Hheap; reflexivity).
  rewrite (append_at _ (S (length h0))
             (map VRef (seq (length h0 + 3 + k) j))).
  2:{ simpl heap. rewrite Hshape, <- app_assoc. apply nth_error_second. }
  unfold with_heap. simpl. f_equal. f_equal.
  rewrite Hshape, <- app_assoc. simpl. rewrite update_second.
  f_equal. unfold layout. simpl.
  rewrite !length_app, map_app. simpl. rewrite !length_app, !length_map.
  fold k. fold j. rewrite Nat.add_1_r, seq_S, map_app, <- app_assoc. simpl.
  replace (length h0 + S (S (S (k + j)))) with (length h0 + 3 + k + j) by lia.
  reflexivity.
Qed.

End Steps.

(** *** The checks *)

Lemma nth_error_prefix {A} (h added : list A) l o :
  nth_error h l = Some o -> nth_error (h ++ added) l = Some o.
Proof.
  intros H. rewrite nth_error_app1; [exact H|].
  apply nth_error_Some. congruence.
Qed.

Lemma with_heap_same w h : heap w = h -> with_heap h w = w.
Proof. destruct w. simpl. now intros ->. Qed.

Lemma validator_at_extend h added st self v :
  validator_at h st self v -> validator_at (h ++ added) st self v.
Proof.
  intros [l [attrs [lw [lf [ln [Hs [Hl [Hw [Hlw [Hf [Hlf [Hn [Hln Hp]]]]]]]]]]]]].
  exists l, attrs, lw, lf, ln.
  repeat split; auto using nth_error_prefix.
Qed.

(** The dictionaries are those of the findings of the report. *)
Lemma finding_dicts :
  insufficient_length_dict = error_dict insufficient_length
  /\ (forall found,
        ambiguity_dict (join (u ", ") found) = error_dict (ambiguity found))
  /\ (forall keywords,
        missing_keywords_dict (join (u ", ") (firstn 3 keywords))
        = error_dict (missing_keywords keywords))
  /\ lack_of_specificity_dict = error_dict lack_of_specificity
  /\ measurability_dict = suggestion_dict measurability.
Proof.
  unfold insufficient_length_dict, ambiguity_dict, missing_keywords_dict,
    lack_of_specificity_dict, measurability_dict, error_dict, suggestion_dict,
    insufficient_length, ambiguity, missing_keywords, lack_of_specificity,
    measurability.
  cbn [Error.type Error.description Error.suggestion Suggestion.type
         Suggestion.description Suggestion.recommendation].
  repeat split.
Qed.

Section Checks.
Variable h0 : list object.
Variable r : ValidationResult.
Variable w : world.
Variable self : value.
Variable v : Validator.
Variable st : TS.
Hypothesis Hheap : heap w = h0 ++ layout (length h0) r.
Hypothesis Hnone : suggestions r = [].
Hypothesis Hself : validator_at h0 st self v.

Let vr : value := VRef (length h0 + 2).

(** The two statements by which a check records its error. *)
Lemma record_error e :
  bind (setitem vr (u "is_valid") (VBool false))
    (fun _ =>
       bind (getitem vr (u "errors"))
         (fun errors =>
            bind (alloc (error_dict e)) (fun finding => append errors finding)))
    w
  = (Normal tt,
     with_heap (h0 ++ layout (length h0) (errors_append e (set_is_valid false r)))
       w).
Proof.
  rewrite (bind_normal _ _ _ _ _ (clear_is_valid h0 r w Hheap)).
  set (w1 := with_heap (h0 ++ layout (length h0) (set_is_valid false r)) w).
  rewrite (bind_normal _ _ _ _ _
             (errors_of_result h0 (set_is_valid false r) w1 eq_refl)).
  apply (append_error h0 (set_is_valid false r) w1 eq_refl e Hnone).
Qed.

Lemma check_length_run requirement :
  check_length requirement vr w
  = (Normal tt,
     with_heap (h0 ++ layout (length h0) (length_check requirement r)) w).
Proof.
  unfold check_length, length_check.
  destruct (length (split requirement) <? 5).
  - destruct finding_dicts as [-> _]. apply record_error.
  - unfold ret. now rewrite (with_heap_same _ _ Hheap).
Qed.

Lemma check_ambiguity_run normalized :
  check_ambiguity self normalized vr w
  = (Normal tt,
     with_heap
       (h0 ++ layout (length h0)
                (ambiguity_check (weak_words v) normalized r)) w).
Proof.
  destruct (validator_at_extend _ (layout (length h0) r) _ _ _ Hself)
    as [l [attrs [lw [_ [_ [-> [Hl [Hw [Hlw _]]]]]]]]].
  rewrite <- Hheap in Hl, Hlw.
  unfold check_ambiguity, ambiguity_check.
  rewrite (bind_normal _ _ _ _ _ (getattr_at _ _ _ _ _ Hl Hw)).
  rewrite (bind_normal _ _ _ _ _ (iterate_at _ _ _ Hlw)).
  rewrite (bind_normal _ _ _ _ _ (words_in_strings _ _ _)).
  destruct (filter (fun word => str_in word normalized) (weak_words v))
    as [|word found].
  - unfold ret. now rewrite (with_heap_same _ _ Hheap).
  - change (map VStr (word :: found)) with (VStr word :: map VStr found) at 1.
    cbv iota.
    rewrite (bind_normal _ _ _ _ _ (clear_is_valid h0 r w Hheap)).
    set (w1 := with_heap (h0 ++ layout (length h0) (set_is_valid false r)) w).
    rewrite (bind_normal _ _ _ _ _
               (errors_of_result h0 (set_is_valid false r) w1 eq_refl)).
    rewrite (bind_normal _ _ _ _ _
               (str_join_strings (u ", ") (word :: found) w1)).
    destruct finding_dicts as [_ [-> _]].
    apply (append_error h0 (set_is_valid false r) w1 eq_refl
             (ambiguity (word :: found)) Hnone).
Qed.

Lemma check_keywords_run is_functional normalized :
  check_keywords self is_functional normalized vr w
  = (Normal tt,
     with_heap
       (h0 ++ layout (length h0)
                (keyword_check (selected_keywords v is_functional)
                   normalized r)) w).
Proof.
  destruct Hself
    as [l [attrs [_ [lf [ln [-> [Hl [_ [_ [Hf [Hlf [Hn [Hln _]]]]]]]]]]]]].
  assert (Hread : exists lk,
             (if is_functional then getattr (VRef l) (u "functional_keywords")
              else getattr (VRef l) (u "non_functional_keywords")) w
             = (Normal (VRef lk), w)
             /\ nth_error h0 lk
                = Some (OList (map VStr (selected_keywords v is_functional)))).
  { destruct is_functional; [exists lf | exists ln];
      (split; [|assumption]);
      apply (getattr_at _ _ attrs); try assumption;
      rewrite Hheap; now apply nth_error_prefix. }
  destruct Hread as [lk [Hget Hlk]].
  unfold check_keywords, keyword_check.
  rewrite (bind_normal _ _ _ _ _ Hget).
  assert (Hlkw : nth_error (heap w) lk
                 = Some (OList (map VStr (selected_keywords v is_functional))))
    by (rewrite Hheap; now apply nth_error_prefix).
  rewrite (bind_normal _ _ _ _ _ (iterate_at _ _ _ Hlkw)).
  rewrite (bind_normal _ _ _ _ _ (any_in_strings _ _ _)).
  destruct (existsb (fun keyword => str_in keyword normalized)
              (selected_keywords v is_functional)); cbn [negb].
  - unfold ret. now rewrite (with_heap_same _ _ Hheap).
  - rewrite (bind_normal _ _ _ _ _ (clear_is_valid h0 r w Hheap)).
    set (w1 := with_heap (h0 ++ layout (length h0) (set_is_valid false r)) w).
    rewrite (bind_normal _ _ _ _ _
               (errors_of_result h0 (set_is_valid false r) w1 eq_refl)).
    assert (Hlk1 : nth_error (heap w1) lk
                   = Some (OList (map VStr (selected_keywords v is_functional))))
      by (now apply nth_error_prefix).
    rewrite (bind_normal _ _ _ _ _ (slice_to_at _ _ _ 3 Hlk1)).
    rewrite firstn_map.
    rewrite (bind_normal _ _ _ _ _ (str_join_strings (u ", ") _ w1)).
    destruct finding_dicts as [_ [_ [-> _]]].
    apply (append_error h0 (set_is_valid false r) w1 eq_refl
             (missing_keywords (selected_keywords v is_functional)) Hnone).
Qed.

Lemma check_metrics_run requirement is_functional :
  check_metrics requirement is_functional vr w
  = (Normal tt,
     with_heap
       (h0 ++ layout (length h0)
                (metrics_check requirement is_functional r)) w).
Proof.
  unfold check_metrics, metrics_check.
  destruct (negb _ && is_functional).
  - rewrite (bind_normal _ _ _ _ _ (suggestions_of_result h0 r w Hheap)).
    destruct finding_dicts as [_ [_ [_ [_ ->]]]].
    apply (append_suggestion h0 r w Hheap measurability).
  - unfold ret. now rewrite (with_heap_same _ _ Hheap).
Qed.

End Checks.

Lemma check_specificity_run h0 r w self v requirement :
  heap w = h0 ++ layout (length h0) r ->
  suggestions r = [] ->
  validator_at h0 (pipeline_state w) self v ->
  check_specificity self requirement (VRef (length h0 + 2)) w
  = match tagged v requirement with
    | Returned doc =>
        (Normal tt,
         {| heap := h0 ++ layout (length h0) (grammar_checks doc r);
            pipeline_state :=
              pipeline_after {| heap := h0; pipeline_state := pipeline_state w |}
                self requirement |})
    | Raised message =>
        (Throw (PipelineError message),
         {| heap := h0 ++ layout (length h0) r;
            pipeline_state :=
              pipeline_after {| heap := h0; pipeline_state := pipeline_state w |}
                self requirement |})
    end.
Proof.
  intros Hheap Hnone Hself.
  destruct Hself as [l [attrs [_ [_ [_ [-> [Hl [_ [_ [_ [_ [_ [_ Hnlp]]]]]]]]]]]]].
  assert (Hlw : nth_error (heap w) l = Some (OInstance attrs))
    by (rewrite Hheap; now apply nth_error_prefix).
  unfold check_specificity, tagged, pipeline_after. simpl heap.
  rewrite Hl. destruct Hnlp as [[Ha ->]|[p [Ha ->]]]; rewrite Ha.
  - rewrite (bind_normal _ _ _ _ _ (getattr_at _ _ _ _ _ Hlw Ha)).
    unfold ret. simpl. rewrite <- Hheap. now destruct w.
  - rewrite (bind_normal _ _ _ _ _ (getattr_at _ _ _ _ _ Hlw Ha)).
    rewrite (bind_normal _ _ _ _ _ (getattr_at _ _ _ _ _ Hlw Ha)).
    unfold bind at 1. unfold call. simpl pipeline_state.
    destruct (p (pipeline_state w) requirement) as [[doc|message] state].
    + simpl fst. simpl snd. cbv iota.
      set (w1 := {| heap := heap w; pipeline_state := state |}).
      assert (Hheap1 : heap w1 = h0 ++ layout (length h0) r) by exact Hheap.
      unfold grammar_checks, specificity_check.
      destruct ((length (verbs doc) =? 0) || (length (nouns doc) <? 2)).
      * destruct finding_dicts as [_ [_ [_ [-> _]]]].
        now rewrite (record_error h0 r w1 Hheap1 Hnone lack_of_specificity).
      * unfold ret, w1. now rewrite Hheap.
    + simpl. now rewrite Hheap.
Qed.

(** The first three statements: the two lists and the dictionary. *)
Lemma allocate_result {A} text (k : value -> M A) w :
  bind (alloc (OList []))
    (fun errors =>
       bind (alloc (OList []))
         (fun suggestions =>
            bind (alloc (ODict [(u "original_text", VStr text);
                                (u "is_valid", VBool true);
                                (u "errors", errors);
                                (u "suggestions", suggestions)]))
              k))
    w
  = k (VRef (length (heap w) + 2))
      (with_heap
         (heap w
          ++ layout (length (heap w))
               {| original_text := text;
                  is_valid := true;
                  errors := [];
                  suggestions := [] |})
         w).
Proof.
  unfold bind, alloc, with_heap. simpl.
  rewrite !length_app. simpl.
  rewrite <- !app_assoc. simpl.
  replace (length (heap w) + 1) with (S (length (heap w))) by lia.
  replace (S (length (heap w)) + 1) with (length (heap w) + 2) by lia.
  reflexivity.
Qed.

Lemma checks_keep_suggestions requirement weak keywords normalized r :
  suggestions (length_check requirement r) = suggestions r
  /\ suggestions (ambiguity_check weak normalized r) = suggestions r
  /\ suggestions (keyword_check keywords normalized r) = suggestions r.
Proof.
  unfold length_check, ambiguity_check, keyword_check.
  destruct (length (split requirement) <? 5);
    destruct (filter (fun word => str_in word normalized) weak);
    destruct (negb (existsb (fun keyword => str_in keyword normalized) keywords));
    repeat split.
Qed.

(** The call, statement by statement: it raises what the pipeline raises,
    or returns the reference to a dictionary that, with the objects it
    leads to, is laid out after the objects that were there, for the
    report of [validate_requirement] on the validator at [self]. *)
Lemma call_run w self v requirement is_functional :
  validator_at (heap w) (pipeline_state w) self v ->
  validate_requirement self requirement is_functional w
  = match tagged v (strip requirement) with
    | Returned doc =>
        (Normal (VRef (length (heap w) + 2)),
         {| heap :=
              heap w
              ++ layout (length (heap w))
                   (metrics_check (strip requirement) is_functional
                      (grammar_checks doc
                         (text_checks v (strip requirement) is_functional)));
            pipeline_state := pipeline_after w self (strip requirement) |})
    | Raised message =>
        (Throw (PipelineError message),
         {| heap :=
              heap w
              ++ layout (length (heap w))
                   (text_checks v (strip requirement) is_functional);
            pipeline_state := pipeline_after w self (strip requirement) |})
    end.
Proof.
  intros Hself.
  assert (Hinst : normalize_text_of self (strip requirement) w
                  = (Normal (normalize_text (strip requirement)), w)).
  { destruct Hself as [l [attrs [_ [_ [_ [-> [Hl _]]]]]]].
    unfold normalize_text_of, bind, target. now rewrite Hl. }
  unfold validate_requirement.
  rewrite (bind_normal _ _ _ _ _ Hinst).
  rewrite allocate_result.
  set (h0 := heap w). set (text := strip requirement).
  set (normalized := normalize_text text).
  set (r0 := {| original_text := text; is_valid := true;
                errors := []; suggestions := [] |}).
  set (w0 := with_heap (h0 ++ layout (length h0) r0) w).
  rewrite (bind_normal _ _ _ _ _
             (check_length_run h0 r0 w0 eq_refl eq_refl text)).
  set (r1 := length_check text r0).
  assert (Hs1 : suggestions r1 = [])
    by (apply (checks_keep_suggestions text [] [] [] r0)).
  set (w1 := with_heap (h0 ++ layout (length h0) r1) w0).
  rewrite (bind_normal _ _ _ _ _
             (check_ambiguity_run h0 r1 w1 self v (pipeline_state w)
                eq_refl Hs1 Hself normalized)).
  set (r2 := ambiguity_check (weak_words v) normalized r1).
  assert (Hs2 : suggestions r2 = []).
  { unfold r2.
    destruct (checks_keep_suggestions text (weak_words v) [] normalized r1)
      as [_ [-> _]].
    exact Hs1. }
  set (w2 := with_heap (h0 ++ layout (length h0) r2) w1).
  rewrite (bind_normal _ _ _ _ _
             (check_keywords_run h0 r2 w2 self v (pipeline_state w)
                eq_refl Hs2 Hself is_functional normalized)).
  set (r3 := keyword_check (selected_keywords v is_functional)
               normalized r2).
  assert (Hs3 : suggestions r3 = []).
  { unfold r3.
    destruct (checks_keep_suggestions text []
                (selected_keywords v is_functional) normalized r2)
      as [_ [_ ->]].
    exact Hs2. }
  set (w3 := with_heap (h0 ++ layout (length h0) r3) w2).
  pose proof (check_specificity_run h0 r3 w3 self v text eq_refl Hs3 Hself)
    as Hspec.
  change (text_checks v text is_functional) with r3.
  change (pipeline_after {| heap := h0; pipeline_state := pipeline_state w3 |}
            self text)
    with (pipeline_after w self text) in Hspec.
  destruct (tagged v text) as [doc|message].
  - rewrite (bind_normal _ _ _ _ _ Hspec).
    set (r4 := grammar_checks doc r3).
    set (w4 := {| heap := h0 ++ layout (length h0) r4;
                  pipeline_state := pipeline_after w self text |}).
    rewrite (bind_normal _ _ _ _ _
               (check_metrics_run h0 r4 w4 eq_refl text is_functional)).
    reflexivity.
  - now rewrite (bind_throw _ _ _ _ _ Hspec).
Qed.

(** *** Reading a validator *)

Lemma read_list_at h v items :
  read_list h v = Some items ->
  exists l, v = VRef l /\ nth_error h l = Some (OList items).
Proof.
  unfold read_list. destruct v as [| | |l|]; try discriminate.
  destruct (nth_error h l) as [[items'| |]|] eqn:Hl; try discriminate.
  intros [= <-]. now exists l.
Qed.

Lemma read_table_at h name attrs ss :
  read_table h name attrs = Some ss ->
  exists l,
    assoc name attrs = Some (VRef l)
    /\ nth_error h l = Some (OList (map VStr ss)).
Proof.
  unfold read_table. destruct (assoc name attrs) as [table|]; [|discriminate].
  destruct (read_list h table) as [items|] eqn:E; [|discriminate].
  intros Hs. apply strings_inv in Hs. subst items.
  apply read_list_at in E as [l [-> Hl]]. now exists l.
Qed.

Lemma read_validator_at w self v :
  read_validator w self = Some v ->
  validator_at (heap w) (pipeline_state w) self v.
Proof.
  unfold read_validator. destruct self as [| | |l|]; try discriminate.
  destruct (nth_error (heap w) l) as [[| |attrs]|] eqn:Hl; try discriminate.
  destruct (assoc (u "nlp") attrs) as [nlp_value|] eqn:Hn; [|discriminate].
  destruct (read_table (heap w) (u "weak_words") attrs) as [weak|] eqn:Hw;
    [|destruct nlp_value; discriminate].
  destruct (read_table (heap w) (u "functional_keywords") attrs)
    as [functional|] eqn:Hf; [|destruct nlp_value; discriminate].
  destruct (read_table (heap w) (u "non_functional_keywords") attrs)
    as [non_functional|] eqn:Hnf; [|destruct nlp_value; discriminate].
  apply read_table_at in Hw as [lw [Hw Hlw]].
  apply read_table_at in Hf as [lf [Hf Hlf]].
  apply read_table_at in Hnf as [ln [Hnf Hln]].
  destruct nlp_value as [| | | |p]; try discriminate; intros [= <-];
    exists l, attrs, lw, lf, ln; simpl; repeat split; auto.
  right. now exists p.
Qed.

Lemma validator_at_read w self v :
  validator_at (heap w) (pipeline_state w) self v ->
  read_validator w self = Some v.
Proof.
  intros [l [attrs [lw [lf [ln [-> [Hl [Hw [Hlw [Hf [Hlf [Hn [Hln Hp]]]]]]]]]]]]].
  unfold read_validator, read_table, read_list.
  rewrite Hl, Hw, Hlw, Hf, Hlf, Hn, Hln, !strings_map.
  destruct v as [tagger weak functional non_functional]. simpl in *.
  destruct Hp as [[-> ->]|[p [-> ->]]]; reflexivity.
Qed.

(** *** Reports stay where they are *)

Lemma read_all_extend {A} (read read' : value -> option A) vs items :
  (forall v a, read v = Some a -> read' v = Some a) ->
  read_all read vs = Some items -> read_all read' vs = Some items.
Proof.
  intros Hread. revert items. induction vs as [|v vs IH]; intros items; simpl;
    [auto|].
  destruct (read v) as [a|] eqn:E; [|discriminate].
  destruct (read_all read vs) as [others|]; [|discriminate].
  intros [= <-]. now rewrite (Hread v a E), (IH others eq_refl).
Qed.

Lemma read_error_extend h added v e :
  read_error h v = Some e -> read_error (h ++ added) v = Some e.
Proof.
  unfold read_error. destruct v as [| | |l|]; try discriminate.
  destruct (nth_error h l) as [o|] eqn:Hl; [|discriminate].
  now rewrite (nth_error_prefix _ added _ _ Hl).
Qed.

Lemma read_suggestion_extend h added v s :
  read_suggestion h v = Some s -> read_suggestion (h ++ added) v = Some s.
Proof.
  unfold read_suggestion. destruct v as [| | |l|]; try discriminate.
  destruct (nth_error h l) as [o|] eqn:Hl; [|discriminate].
  now rewrite (nth_error_prefix _ added _ _ Hl).
Qed.

Lemma read_list_extend h added v items :
  read_list h v = Some items -> read_list (h ++ added) v = Some items.
Proof.
  unfold read_list. destruct v as [| | |l|]; try discriminate.
  destruct (nth_error h l) as [o|] eqn:Hl; [|discriminate].
  now rewrite (nth_error_prefix _ added _ _ Hl).
Qed.

(** A report that can be read is read the same on a heap with more objects. *)
Lemma snapshot_extend h added v r :
  snapshot h v = Some r -> snapshot (h ++ added) v = Some r.
Proof.
  unfold snapshot. destruct v as [| | |l|]; try discriminate.
  destruct (nth_error h l) as [o|] eqn:Hl; [|discriminate].
  rewrite (nth_error_prefix _ added _ _ Hl).
  destruct o as [|entries|]; try discriminate.
  destruct (assoc (u "original_text") entries) as [[| |text| |]|];
    try discriminate.
  destruct (assoc (u "is_valid") entries) as [[|valid| | |]|];
    try discriminate.
  destruct (assoc (u "errors") entries) as [errs|]; [|discriminate].
  destruct (assoc (u "suggestions") entries) as [sugs|]; [|discriminate].
  destruct (read_list h errs) as [es|] eqn:He; [|discriminate].
  destruct (read_list h sugs) as [ss|] eqn:Hs; [|discriminate].
  rewrite (read_list_extend _ added _ _ He), (read_list_extend _ added _ _ Hs).
  destruct (read_all (read_error h) es) as [errors'|] eqn:Hes; [|discriminate].
  destruct (read_all (read_suggestion h) ss) as [suggestions'|] eqn:Hss;
    [|discriminate].
  rewrite (read_all_extend _ (read_error (h ++ added)) _ _
             (read_error_extend h added) Hes).
  rewrite (read_all_extend _ (read_suggestion (h ++ added)) _ _
             (read_suggestion_extend h added) Hss).
  auto.
Qed.

(** *** The validator that [__init__] builds *)

Lemma validator_attrs (a b c d : value) :
  let attrs := [(u "nlp", a); (u "weak_words", b);
                (u "functional_keywords", c);
                (u "non_functional_keywords", d)] in
  assoc (u "nlp") attrs = Some a
  /\ assoc (u "weak_words") attrs = Some b
  /\ assoc (u "functional_keywords") attrs = Some c
  /\ assoc (u "non_functional_keywords") attrs = Some d
  /\ assoc_set (u "non_functional_keywords") d
       (assoc_set (u "functional_keywords") c
          (assoc_set (u "weak_words") b (assoc_set (u "nlp") a [])))
     = attrs
  /\ assoc_set (u "weak_words") b (assoc_set (u "nlp") a [])
     = [(u "nlp", a); (u "weak_words", b)]
  /\ assoc_set (u "functional_keywords") c
       [(u "nlp", a); (u "weak_words", b)]
     = [(u "nlp", a); (u "weak_words", b); (u "functional_keywords", c)]
  /\ assoc_set (u "non_functional_keywords") d
       [(u "nlp", a); (u "weak_words", b); (u "functional_keywords", c)]
     = attrs.
Proof. repeat split; vm_compute; reflexivity. Qed.

Lemma setattr_at w l attrs name v :
  nth_error (heap w) l = Some (OInstance attrs) ->
  setattr (VRef l) name v w
  = (Normal tt,
     with_heap (update (heap w) l (OInstance (assoc_set name v attrs))) w).
Proof.
  intros Hl. unfold setattr, bind, target. rewrite Hl. reflexivity.
Qed.

Lemma alloc_then {A} o (k : value -> M A) w :
  bind (alloc o) k w
  = k (VRef (length (heap w))) (with_heap (heap w ++ [o]) w).
Proof. reflexivity. Qed.

Lemma setattr_then {A} l attrs name v (k : unit -> M A) w :
  nth_error (heap w) l = Some (OInstance attrs) ->
  bind (setattr (VRef l) name v) k w
  = k tt (with_heap (update (heap w) l (OInstance (assoc_set name v attrs))) w).
Proof.
  intros Hl. now rewrite (bind_normal _ _ _ _ _ (setattr_at _ _ _ _ _ Hl)).
Qed.

(** The pipeline of [__init__], seen as a function of the text at the state
    the pipeline is in. *)
Definition loaded (spacy_load : outcome Pipeline) (st : TS) : outcome Tagger :=
  match spacy_load with
  | Returned p => Returned (fun text => fst (p st text))
  | Raised message => Raised message
  end.

Ltac tidy_heap :=
  unfold with_heap; cbn [heap pipeline_state];
  rewrite <- ?app_assoc; cbn [app]; rewrite ?update_first;
  repeat match goal with
    | H : assoc_set _ _ _ = _ |- _ => rewrite H
    | H : length _ = _ |- _ => rewrite H
    | H : forall a b : object, length _ = _ |- _ => rewrite H
    | H : forall a b c : object, length _ = _ |- _ => rewrite H
    end.

Lemma init_run spacy_load w :
  exists added,
    initialize spacy_load w
    = (Normal (VRef (length (heap w))), with_heap (heap w ++ added) w)
    /\ validator_at (heap w ++ added) (pipeline_state w)
         (VRef (length (heap w)))
         (init (loaded spacy_load (pipeline_state w))).
Proof.
  set (nlp_value := match spacy_load with
                    | Returned nlp => VCallable nlp
                    | Raised _ => VNone
                    end).
  set (n := length (heap w)).
  set (weak := OList (map VStr (weak_words (init (Raised []))))).
  set (functional :=
         OList (map VStr (functional_keywords (init (Raised []))))).
  set (non_functional :=
         OList (map VStr (non_functional_keywords (init (Raised []))))).
  set (attrs := [(u "nlp", nlp_value); (u "weak_words", VRef (n + 1));
                 (u "functional_keywords", VRef (n + 2));
                 (u "non_functional_keywords", VRef (n + 3))]).
  exists [OInstance attrs; weak; functional; non_functional].
  destruct (validator_attrs nlp_value (VRef (n + 1)) (VRef (n + 2))
              (VRef (n + 3)))
    as [Hnlp [Hweak [Hfun [Hnon [_ [Hset1 [Hset2 Hset3]]]]]]].
  assert (Hset0 : assoc_set (u "nlp") nlp_value [] = [(u "nlp", nlp_value)])
    by reflexivity.
  assert (Hn1 : length (heap w ++ [OInstance [(u "nlp", nlp_value)]]) = n + 1)
    by (rewrite length_app; reflexivity).
  assert (Hn2 : forall a b : object, length (heap w ++ [a; b]) = n + 2)
    by (intros; rewrite length_app; reflexivity).
  assert (Hn3 : forall a b c : object, length (heap w ++ [a; b; c]) = n + 3)
    by (intros; rewrite length_app; reflexivity).
  split.
  - unfold initialize. fold nlp_value.
    rewrite alloc_then. tidy_heap.
    rewrite (setattr_then n []) by (cbn [heap]; apply nth_error_first).
    tidy_heap.
    rewrite alloc_then. tidy_heap.
    rewrite (setattr_then n [(u "nlp", nlp_value)])
      by (cbn [heap]; apply nth_error_first).
    tidy_heap.
    rewrite alloc_then. tidy_heap.
    rewrite (setattr_then n [(u "nlp", nlp_value); (u "weak_words", VRef (n + 1))])
      by (cbn [heap]; apply nth_error_first).
    tidy_heap.
    rewrite alloc_then. tidy_heap.
    rewrite (setattr_then n [(u "nlp", nlp_value); (u "weak_words", VRef (n + 1));
                             (u "functional_keywords", VRef (n + 2))])
      by (cbn [heap]; apply nth_error_first).
    tidy_heap. reflexivity.
  - exists n, attrs, (n + 1), (n + 2), (n + 3). unfold n.
    repeat split; auto.
    + apply nth_error_first.
    + rewrite nth_error_app_plus. reflexivity.
    + rewrite nth_error_app_plus. reflexivity.
    + rewrite nth_error_app_plus. reflexivity.
    + unfold nlp_value, loaded.
      destruct spacy_load as [p|message]; [right; now exists p | now left].
Qed.

(** ** The claims on the heap *)

Lemma report_tagged v requirement is_functional :
  report v requirement is_functional
  = match tagged v (strip requirement) with
    | Returned doc =>
        Returned
          (metrics_check (strip requirement) is_functional
             (grammar_checks doc
                (text_checks v (strip requirement) is_functional)))
    | Raised message => Raised message
    end.
Proof.
  unfold report. rewrite validate_requirement_run. simpl.
  now destruct (tagged v (strip requirement)).
Qed.

Lemma layout_length n r : 3 <= length (layout n r).
Proof. unfold layout. simpl. lia. Qed.

(** C10: on a validator as [__init__] leaves it (an instance whose three
    tables are lists of strings and whose [nlp] is [None] or a pipeline),
    for every string, the empty one too, and either flag, the call raises
    no [AttributeError], [TypeError] or [KeyError]: provided that the
    pipeline, when there is one, returns on the trimmed requirement, the
    call returns a reference from which a whole report can be read, the
    report of [validate_requirement] on the validator read at [self]. *)
Theorem call_returns w self v requirement is_functional :
  read_validator w self = Some v ->
  (forall tagger,
      nlp v = Some tagger ->
      exists doc, tagger (strip requirement) = Returned doc) ->
  exists r w' rep,
    validate_requirement self requirement is_functional w = (Normal r, w')
    /\ snapshot (heap w') r = Some rep
    /\ report v requirement is_functional = Returned rep.
Proof.
  intros Hread Htagger. apply read_validator_at in Hread.
  pose proof (call_run w self v requirement is_functional Hread) as Hrun.
  rewrite report_tagged.
  assert (Hdoc : exists doc, tagged v (strip requirement) = Returned doc).
  { unfold tagged. destruct (nlp v) as [tagger|]; [|now exists None].
    destruct (Htagger tagger eq_refl) as [doc ->]. now exists (Some doc). }
  destruct Hdoc as [doc Hdoc]. rewrite Hdoc in Hrun |- *.
  eexists. eexists. eexists. split; [exact Hrun|].
  split; [apply snapshot_layout | reflexivity].
Qed.

(** C9: two calls with the same requirement and flag, one after the other
    on the same validator, with the pipeline in the same state at both,
    end alike: both raise the same exception, or both return a report and
    the two reports, two different objects, read the same, field by field
    and element by element.  The first call leaves the validator and its
    tables as they were, and the second leaves the report of the first as
    it was. *)
Theorem call_repeatable w self v requirement is_functional :
  read_validator w self = Some v ->
  pipeline_state (snd (validate_requirement self requirement is_functional w))
  = pipeline_state w ->
  let first := validate_requirement self requirement is_functional w in
  let second :=
    validate_requirement self requirement is_functional (snd first) in
  read_validator (snd first) self = Some v
  /\ match fst first, fst second with
     | Normal r1, Normal r2 =>
         r1 <> r2
         /\ exists rep,
             snapshot (heap (snd first)) r1 = Some rep
             /\ snapshot (heap (snd second)) r2 = Some rep
             /\ snapshot (heap (snd second)) r1 = Some rep
     | Throw e1, Throw e2 => e1 = e2
     | _, _ => False
     end.
Proof.
  intros Hread Hstate first second.
  apply read_validator_at in Hread.
  pose proof (call_run w self v requirement is_functional Hread) as Hrun.
  destruct (tagged v (strip requirement)) as [doc|message] eqn:Htag.
  - set (rep := metrics_check (strip requirement) is_functional
                  (grammar_checks doc
                     (text_checks v (strip requirement) is_functional)))
      in Hrun.
    set (w1 := {| heap := heap w ++ layout (length (heap w)) rep;
                  pipeline_state :=
                    pipeline_after w self (strip requirement) |}) in Hrun.
    assert (Hat : validator_at (heap w1) (pipeline_state w1) self v).
    { rewrite Hrun in Hstate. simpl in Hstate. unfold w1. simpl.
      rewrite Hstate. now apply validator_at_extend. }
    pose proof (call_run w1 self v requirement is_functional Hat) as Hrun2.
    rewrite Htag in Hrun2. fold rep in Hrun2.
    unfold second, first. rewrite Hrun. simpl fst. simpl snd.
    rewrite Hrun2. simpl fst. simpl snd.
    split; [now apply validator_at_read|]. split.
    + intros [= Heq]. unfold w1 in Heq. simpl in Heq.
      rewrite length_app in Heq.
      pose proof (layout_length (length (heap w)) rep). lia.
    + exists rep. split; [apply snapshot_layout|].
      split; [apply snapshot_layout|].
      apply snapshot_extend, snapshot_layout.
  - set (w1 := {| heap := heap w
                          ++ layout (length (heap w))
                               (text_checks v (strip requirement) is_functional);
                  pipeline_state :=
                    pipeline_after w self (strip requirement) |}) in Hrun.
    assert (Hat : validator_at (heap w1) (pipeline_state w1) self v).
    { rewrite Hrun in Hstate. simpl in Hstate. unfold w1. simpl.
      rewrite Hstate. now apply validator_at_extend. }
    pose proof (call_run w1 self v requirement is_functional Hat) as Hrun2.
    rewrite Htag in Hrun2.
    unfold second, first. rewrite Hrun. simpl fst. simpl snd.
    rewrite Hrun2. simpl fst.
    split; [now apply validator_at_read | reflexivity].
Qed.


(** X10: on a validator as [__init__] leaves it, a call raises exactly when
    there is a pipeline and it raises on the trimmed requirement, and what
    the call raises is the exception of the pipeline: no lookup and no
    operation of the method itself fails. *)
Theorem call_raises w self v requirement is_functional e :
  read_validator w self = Some v ->
  (fst (validate_requirement self requirement is_functional w) = Throw e
   <-> exists tagger message,
        nlp v = Some tagger
        /\ tagger (strip requirement) = Raised message
        /\ e = PipelineError message).
Proof.
  intros Hread. apply read_validator_at in Hread.
  rewrite (call_run w self v requirement is_functional Hread).
  unfold tagged. destruct (nlp v) as [tagger|].
  - destruct (tagger (strip requirement)) as [doc|message] eqn:E; simpl.
    + split; [discriminate|].
      intros [t [m [[= <-] [Ht _]]]]. congruence.
    + split.
      * intros [= <-]. now exists tagger, message.
      * intros [t [m [[= <-] [Ht ->]]]]. congruence.
  - simpl. split; [discriminate|]. intros [t [m [Ht _]]]. discriminate.
Qed.

(** X13: whatever loading the pipeline does, [__init__] raises nothing and
    leaves a validator that reads as that of [init]: the three tables of
    the source, and the pipeline, or [None] when loading it failed; the
    objects that were on the heap stay as they were. *)
Theorem initialize_builds spacy_load w :
  exists self w',
    initialize spacy_load w = (Normal self, w')
    /\ read_validator w' self
       = Some (init (loaded spacy_load (pipeline_state w)))
    /\ (forall l o,
          nth_error (heap w) l = Some o -> nth_error (heap w') l = Some o).
Proof.
  destruct (init_run spacy_load w) as [added [Hrun Hat]].
  eexists. eexists. split; [exact Hrun|]. split.
  - now apply validator_at_read.
  - intros l o Hl. now apply nth_error_prefix.
Qed.

End Model.

(** ** Concrete heaps *)

(** A pipeline that keeps its state, one whose answers depend on how often
    it was called, and the validators [__init__] builds with them on an
    empty heap. *)
Definition steady : @Pipeline nat :=
  fun state text => (Demo.tagger text, state).

Definition tiring : @Pipeline nat :=
  fun state text =>
    (if state =? 0 then Demo.tagger text else Returned [], S state).

Definition empty : @world nat := {| heap := []; pipeline_state := 0 |}.

Definition built (spacy_load : outcome (@Pipeline nat)) : @world nat :=
  snd (initialize spacy_load empty).

(** The validator of [built], with [None] put among its weak words. *)
Definition spoilt : @world nat :=
  with_heap
    (update (heap (built (Raised (u "model not found")))) 1
       (OList [VStr (u "algo"); VNone]))
    (built (Raised (u "model not found"))).

(** The calls of the model can fail in the ways Python's can: on a table
    that holds something that is no string, and on a receiver that is no
    validator. *)
Example spoilt_table_raises :
  read_validator spoilt (VRef 0) = None
  /\ fst (validate_requirement (VRef 0) Demo.sales true spoilt)
     = Throw TypeError
  /\ fst (validate_requirement (VNone) Demo.sales true spoilt)
     = Throw AttributeError.
Proof. repeat split; vm_compute; reflexivity. Qed.

(** With a pipeline that changes its state, two calls need not agree. *)
Example tiring_pipeline_differs :
  let first := validate_requirement (VRef 0) Demo.sales true
                 (built (Returned tiring)) in
  let second := validate_requirement (VRef 0) Demo.sales true
                  (snd first) in
  exists r1 r2 rep1 rep2,
    fst first = Normal r1 /\ fst second = Normal r2
    /\ snapshot (heap (snd first)) r1 = Some rep1
    /\ snapshot (heap (snd second)) r2 = Some rep2
    /\ is_valid rep1 = true /\ is_valid rep2 = false.
Proof.
  do 4 eexists.
  split; [vm_compute; reflexivity|]. split; [vm_compute; reflexivity|].
  split; [vm_compute; reflexivity|]. split; [vm_compute; reflexivity|].
  split; reflexivity.
Qed.

Lemma call_returns_witness :
  exists v,
    read_validator (built (Returned steady)) (VRef 0) = Some v
    /\ (forall tagger,
          nlp v = Some tagger -> exists doc, tagger (strip []) = Returned doc)
    /\ exists r w' rep,
        validate_requirement (VRef 0) [] false (built (Returned steady))
        = (Normal r, w')
        /\ snapshot (heap w') r = Some rep
        /\ report v [] false = Returned rep.
Proof.
  eexists. split; [vm_compute; reflexivity|].
  assert (H : forall tagger : Tagger,
             Some (fun text => fst (steady 0 text)) = Some tagger ->
             exists doc, tagger (strip []) = Returned doc).
  { intros tagger [= <-]. eexists. vm_compute. reflexivity. }
  split; [exact H|].
  eapply (call_returns (built (Returned steady)) (VRef 0) _ [] false).
  - vm_compute. reflexivity.
  - exact H.
Defined.

Lemma call_repeatable_witness :
  exists v,
    read_validator (built (Returned steady)) (VRef 0) = Some v
    /\ read_validator
         (snd (validate_requirement (VRef 0) Demo.sales true
                 (built (Returned steady))))
         (VRef 0)
       = Some v.
Proof.
  eexists. split; [vm_compute; reflexivity|].
  refine (proj1 (call_repeatable (built (Returned steady)) (VRef 0) _
                   Demo.sales true _ _)).
  - vm_compute. reflexivity.
  - vm_compute. reflexivity.
Defined.


Lemma call_raises_witness :
  exists v,
    read_validator (built (Returned (fun state _ => (Raised (u "tagger failure"), state))))
      (VRef 0) = Some v
    /\ fst (validate_requirement (VRef 0) Demo.sales true
              (built (Returned (fun state _ => (Raised (u "tagger failure"), state)))))
       = Throw (PipelineError (u "tagger failure")).
Proof.
  eexists. split; [vm_compute; reflexivity|].
  eapply (call_raises
           (built (Returned (fun state _ => (Raised (u "tagger failure"), state))))
           (VRef 0) _ Demo.sales true (PipelineError (u "tagger failure"))).
  - vm_compute. reflexivity.
  - eexists. eexists. split; [reflexivity|].
    split; [vm_compute; reflexivity | reflexivity].
Defined.

End Py.
